(** * Novel Translation Refiner: the front-end services, verified

    A shallow embedding of the TypeScript services of the Angular
    application (src/app/services: api.ts, nlp.ts, glossary.ts, novel.ts),
    of the interfaces they exchange with the back end (src/app/models:
    nlp.model.ts, glossary.model.ts, novel.model.ts) and of the search
    component (src/app/components/novel-search/novel-search.ts, in its two
    revisions).

    Conventions of the embedding.
    - A JavaScript string is its sequence of UTF-16 code units
      ([jsstring]); [length] counts code units, as [String.prototype.length]
      does.  String literals of the source are written [js "..."] when they
      are data, and kept as Rocq strings when they are messages or URLs.
    - The integers the services handle (ids, counters, limits, lengths)
      are [Z].  Quotients (percentages, averages) are kept as exact
      rationals [Q] where only their order or their being 0 matters; the
      completion percentage is also given as the IEEE 754 double the
      engine computes ([JsNumber], primitive floats).
    - An object literal [{}] used as a table is the finite map of its own
      properties together with what it inherits from [Object.prototype]
      ([JsObject]).
    - An [Observable] of the API layer is cold: subscribing runs it
      against the log of the requests issued so far and yields one
      notification, [Next v] or [Error e], and the extended log.  The back
      end is a function of that log and of the request.
    - A component is its fields; an asynchronous method is run to its end,
      so the states in between are not observed.

    Part I is the embedding, Part II the properties the specification
    claims, Part III further properties of the same code. *)

From Stdlib Require Import ZArith QArith Qround Lia List Bool Sorted.
From Stdlib Require Import Permutation Qabs.
From Stdlib Require PrimFloat FloatOps Uint63.
From Stdlib Require Import Strings.String Strings.Ascii.
From stdpp Require Import base list gmap strings fin_maps pretty.

Import ListNotations.
Local Open Scope Z_scope.

(** * Part I. The embedding *)

(** ** JavaScript strings *)

Module JsString.

(** One UTF-16 code unit. *)
Definition codeUnit := N.

Definition jsstring := list codeUnit.

(** A source literal, one code unit per (ASCII) character. *)
Definition js (s : string) : jsstring :=
  List.map N_of_ascii (list_ascii_of_string s).

(** [s.length] *)
Definition jslength (s : jsstring) : Z := Z.of_nat (List.length s).

(** Truthiness of a string: [!s] holds for the empty string only. *)
Definition truthy (s : jsstring) : bool :=
  match s with
  | [] => false
  | _ :: _ => true
  end.

(** ECMAScript WhiteSpace and LineTerminator code points: what
    [String.prototype.trim] strips. *)
Definition isWhiteSpace (c : codeUnit) : bool :=
  ((c =? 0x0009) || (c =? 0x000A) || (c =? 0x000B) || (c =? 0x000C) ||
   (c =? 0x000D) || (c =? 0x0020) || (c =? 0x00A0) || (c =? 0x1680) ||
   ((0x2000 <=? c) && (c <=? 0x200A)) ||
   (c =? 0x2028) || (c =? 0x2029) || (c =? 0x202F) || (c =? 0x205F) ||
   (c =? 0x3000) || (c =? 0xFEFF))%N.

Fixpoint trimStart (s : jsstring) : jsstring :=
  match s with
  | [] => []
  | c :: s' => if isWhiteSpace c then trimStart s' else s
  end.

Definition trimEnd (s : jsstring) : jsstring :=
  List.rev (trimStart (List.rev s)).

(** [s.trim()] *)
Definition trim (s : jsstring) : jsstring := trimEnd (trimStart s).

(** A string consisting only of whitespace characters. *)
Definition whitespaceOnly (s : jsstring) : bool := forallb isWhiteSpace s.

(** [a === b] on strings. *)
Definition jsstring_eqb (a b : jsstring) : bool := bool_decide (a = b).

(** [String.prototype.toLowerCase] on Basic Latin, where it maps A-Z to
    a-z and nothing else.  The services below take the built-in as a
    parameter; this instance runs the examples. *)
Definition asciiToLowerCase (s : jsstring) : jsstring :=
  List.map (fun c => if ((0x41 <=? c) && (c <=? 0x5A))%N then (c + 0x20)%N else c) s.

(** [s.startsWith(p)] *)
Fixpoint startsWith (s p : jsstring) : bool :=
  match p, s with
  | [], _ => true
  | _ :: _, [] => false
  | a :: p', b :: s' => (a =? b)%N && startsWith s' p'
  end.

(** [s.includes(sub)] *)
Fixpoint includes (s sub : jsstring) : bool :=
  startsWith s sub
  || match s with
     | [] => false
     | _ :: s' => includes s' sub
     end.

(** The pieces of [s.split(/[class]+/)] from a position on; [inRun] says
    that the unit before [s] is part of a separator run, which has closed
    its piece already.  A run of separators of any length separates two
    pieces; a run at either end leaves an empty piece there. *)
Fixpoint splitFrom (sep : codeUnit -> bool) (inRun : bool) (s : jsstring)
  : list jsstring :=
  match s with
  | [] => [[]]
  | c :: s' =>
      if sep c then
        if inRun then splitFrom sep true s'
        else [] :: splitFrom sep true s'
      else
        match splitFrom sep false s' with
        | piece :: pieces => (c :: piece) :: pieces
        | [] => [[c]]
        end
  end.

(** [s.split(/[class]+/)], for a class of code units: [/\s+/] is
    [splitOn isWhiteSpace]. *)
Definition splitOn (sep : codeUnit -> bool) (s : jsstring) : list jsstring :=
  splitFrom sep false s.

(** The class of [/[.!?]+/]. *)
Definition isSentenceEnd (c : codeUnit) : bool :=
  ((c =? 0x2E) || (c =? 0x21) || (c =? 0x3F))%N.

End JsString.

Import JsString.

(** ** Arrays *)

Module JsArray.

Section Array.
Context {A : Type}.

(** A relative index of [slice]: negative counts from the end, and the
    result is clamped to [0, len]. *)
Definition relativeIndex (len i : Z) : Z :=
  if i <? 0 then Z.max (len + i) 0 else Z.min i len.

(** [a.slice(start, end)] *)
Definition slice (start end_ : Z) (a : list A) : list A :=
  let len := Z.of_nat (List.length a) in
  let k := relativeIndex len start in
  let final := relativeIndex len end_ in
  firstn (Z.to_nat (Z.max (final - k) 0)) (skipn (Z.to_nat k) a).

(** One step of a stable insertion: [x], which stood before every element
    of the sorted [l], moves right only past elements that the comparator
    orders strictly before it. *)
Fixpoint insertBy (cmp : A -> A -> Z) (x : A) (l : list A) : list A :=
  match l with
  | [] => [x]
  | y :: l' => if cmp x y <=? 0 then x :: l else y :: insertBy cmp x l'
  end.

(** [a.sort(cmp)]: the sort is stable (ECMAScript 2019), so for a
    consistent comparator its result is the one a stable insertion sort
    gives. *)
Definition sort (cmp : A -> A -> Z) (a : list A) : list A :=
  fold_right (insertBy cmp) [] a.

(** [a.reduce(f)] without an initial value; [None] stands for the
    TypeError on an empty array. *)
Definition reduce1 (f : A -> A -> A) (a : list A) : option A :=
  match a with
  | [] => None
  | x :: a' => Some (fold_left f a' x)
  end.

(** [a.find(p)]; [None] is [undefined]. *)
Definition find (p : A -> bool) (a : list A) : option A := List.find p a.

End Array.

End JsArray.

(** ** JavaScript numbers: IEEE 754 doubles *)

Module JsNumber.



End JsNumber.

(** ** Object literals used as tables *)

Module JsObject.

(** The functions an object literal [{}] inherits from [Object.prototype],
    by property name. *)
Definition prototypeMethods : list jsstring :=
  List.map js
    [ "constructor"; "hasOwnProperty"; "isPrototypeOf";
      "propertyIsEnumerable"; "toLocaleString"; "toString"; "valueOf";
      "__defineGetter__"; "__defineSetter__"; "__lookupGetter__";
      "__lookupSetter__" ]%string.

Definition isPrototypeMethod (key : jsstring) : bool :=
  existsb (jsstring_eqb key) prototypeMethods.

(** [__proto__] is an accessor of [Object.prototype]: read, it gives the
    prototype; assigned a primitive value, it changes nothing. *)
Definition isProto (key : jsstring) : bool :=
  jsstring_eqb key (js "__proto__").

(** The property names every object literal answers to. *)
Definition inherited (key : jsstring) : bool :=
  isPrototypeMethod key || isProto key.

(** What [o[key]] reads. *)
Inductive Member (V : Type) :=
| Own (value : V)
| Method (key : jsstring)
| Prototype
| Undefined.
Arguments Own {V} value.
Arguments Method {V} key.
Arguments Prototype {V}.
Arguments Undefined {V}.

(** [o[key]], for an object literal with the own properties [own]. *)
Definition get {V} (own : gmap jsstring V) (key : jsstring) : Member V :=
  match own !! key with
  | Some value => Own value
  | None =>
      if isPrototypeMethod key then Method key
      else if isProto key then Prototype
      else Undefined
  end.

(** [o[key] = value], for a primitive [value]: an own property is created
    or overwritten, but for [__proto__], where the inherited setter runs
    and ignores a primitive. *)
Definition set {V} (own : gmap jsstring V) (key : jsstring) (value : V)
  : gmap jsstring V :=
  match own !! key with
  | Some _ => <[key := value]> own
  | None => if isProto key then own else <[key := value]> own
  end.

(** The string of a built-in function, as V8 prints it (other engines
    differ in white space); [Object.prototype.constructor] is the
    function [Object]. *)
Definition functionSource (key : jsstring) : jsstring :=
  js "function "
  ++ (if jsstring_eqb key (js "constructor") then js "Object" else key)
  ++ js "() { [native code] }".

(** The string of [Object.prototype]. *)
Definition prototypeString : jsstring := js "[object Object]".

End JsObject.

(** ** Validation results, shared by the NLP and the glossary service *)

Record ValidationResult := mkValidation {
  valid : bool;
  errors : list string
}.

(** [errors.push(msg)] under a condition. *)
Definition pushIf (cond : bool) (msg : string) (errs : list string)
  : list string :=
  if cond then errs ++ [msg] else errs.

(** [{ valid: errors.length === 0, errors: errors }] *)
Definition validationOf (errs : list string) : ValidationResult :=
  {| valid := (Z.of_nat (List.length errs) =? 0); errors := errs |}.

(** [!s || s.trim().length === 0] *)
Definition isBlank (s : jsstring) : bool :=
  negb (truthy s) || (jslength (trim s) =? 0).

(** ** Models (src/app/models) *)

(** [Change], nlp.model.ts *)
Module Change.
Record t := mk {
  type : jsstring;
  description : jsstring
}.
End Change.

(** [RefinementResult], nlp.model.ts *)
Module RefinementResult.
Record t := mk {
  original_text : jsstring;
  refined_text : jsstring;
  changes_made : list Change.t;
  confidence_score : Q;
  processing_time : Q
}.
End RefinementResult.

(** [RefineTextRequest], nlp.model.ts; [novel_id?] is [None] when the
    property is undefined. *)
Module RefineTextRequest.
Record t := mk {
  text : jsstring;
  use_glossary : bool;
  novel_id : option Z
}.
End RefineTextRequest.

(** [ProcessingLog], nlp.model.ts *)
Module ProcessingLog.
Record t := mk {
  chapter_id : Z;
  processing_type : jsstring;
  success : bool;
  processing_time : option Q;
  created_at : jsstring
}.
End ProcessingLog.

(** [ProcessingStatus], nlp.model.ts *)
Module ProcessingStatus.
Record t := mk {
  novel_id : Z;
  novel_title : jsstring;
  total_chapters : Z;
  processed_chapters : Z;
  completion_percentage : Q;
  recent_logs : list ProcessingLog.t
}.
End ProcessingStatus.

(** [Chapter], novel.model.ts *)
Module Chapter.
Record t := mk {
  id : Z;
  chapter_number : Z;
  title : jsstring;
  url : jsstring;
  is_processed : bool;
  word_count : Z
}.
End Chapter.

(** [Novel], novel.model.ts *)
Module Novel.
Record t := mk {
  id : Z;
  title : jsstring;
  url : jsstring;
  description : jsstring;
  author : jsstring;
  status : jsstring;
  total_chapters : Z;
  chapters : list Chapter.t
}.
End Novel.

(** [GlossaryTerm], glossary.model.ts *)
Module GlossaryTerm.
Record t := mk {
  id : Z;
  novel_id : Z;
  original_term : jsstring;
  preferred_term : jsstring;
  term_type : jsstring;
  context : option jsstring;
  frequency : Z;
  is_active : bool;
  created_at : jsstring;
  updated_at : jsstring
}.
End GlossaryTerm.

(** [GlossaryTermCreate], glossary.model.ts *)
Module GlossaryTermCreate.
Record t := mk {
  novel_id : Z;
  original_term : jsstring;
  preferred_term : jsstring;
  term_type : jsstring;
  context : option jsstring
}.
End GlossaryTermCreate.

(** *** Interfaces as shapes of JSON values

    What arrives from the back end is a parsed JSON value; an interface
    of the models says which properties it has and of which type.  The
    shapes below are the interface declarations, property for property. *)

Module Json.

#[local] Set Warnings "-register-all".

Inductive JsValue :=
| JNull
| JBool (b : bool)
| JNum (q : Q)
| JStr (s : jsstring)
| JArr (elems : list JsValue)
| JObj (props : list (string * JsValue)).

(** [o[name]]; [None] is [undefined]. *)
Fixpoint prop (name : string) (props : list (string * JsValue))
  : option JsValue :=
  match props with
  | [] => None
  | (k, v) :: props' => if String.eqb k name then Some v else prop name props'
  end.

Inductive TsType :=
| TString
| TNumber
| TBoolean
| TArray (elem : TsType)
| TInterface (fields : list (string * (bool * TsType))).

(** A required property [name: ty] and an optional one [name?: ty]. *)
Definition required (name : string) (ty : TsType) := (name, (false, ty)).
Definition optional (name : string) (ty : TsType) := (name, (true, ty)).

(** [v] has the shape [ty]. *)
Fixpoint hasType (ty : TsType) (v : JsValue) {struct ty} : bool :=
  match ty, v with
  | TString, JStr _ => true
  | TNumber, JNum _ => true
  | TBoolean, JBool _ => true
  | TArray elem, JArr elems => forallb (hasType elem) elems
  | TInterface fields, JObj props =>
      (fix hasFields (fs : list (string * (bool * TsType))) : bool :=
         match fs with
         | [] => true
         | (name, (opt, fty)) :: fs' =>
             match prop name props with
             | Some x => hasType fty x
             | None => opt
             end && hasFields fs'
         end) fields
  | _, _ => false
  end.


(** [export interface Change] *)
Definition Change : TsType :=
  TInterface [ required "type" TString; required "description" TString ].

(** [export interface RefinementResult] *)
Definition RefinementResult : TsType :=
  TInterface
    [ required "original_text" TString;
      required "refined_text" TString;
      required "changes_made" (TArray Change);
      required "confidence_score" TNumber;
      required "processing_time" TNumber ].

(** The typed view of a value of shape [RefinementResult]. *)
Definition asChange (v : JsValue) : option Change.t :=
  match v with
  | JObj props =>
      match prop "type" props, prop "description" props with
      | Some (JStr ty), Some (JStr d) => Some (Change.mk ty d)
      | _, _ => None
      end
  | _ => None
  end.

Definition asRefinementResult (v : JsValue) : option RefinementResult.t :=
  match v with
  | JObj props =>
      match prop "original_text" props, prop "refined_text" props,
            prop "changes_made" props, prop "confidence_score" props,
            prop "processing_time" props with
      | Some (JStr o), Some (JStr r), Some (JArr cs), Some (JNum c),
        Some (JNum p) =>
          match mapM asChange cs with
          | Some changes => Some (RefinementResult.mk o r changes c p)
          | None => None
          end
      | _, _, _, _, _ => None
      end
  | _ => None
  end.

(** The object behind a typed value: the properties its interface
    declares, in the order of the declaration. *)
Definition ofChange (c : Change.t) : JsValue :=
  JObj [("type", JStr (Change.type c));
        ("description", JStr (Change.description c))].

Definition ofRefinementResult (r : RefinementResult.t) : JsValue :=
  JObj [("original_text", JStr (RefinementResult.original_text r));
        ("refined_text", JStr (RefinementResult.refined_text r));
        ("changes_made",
         JArr (List.map ofChange (RefinementResult.changes_made r)));
        ("confidence_score", JNum (RefinementResult.confidence_score r));
        ("processing_time", JNum (RefinementResult.processing_time r))].

End Json.

(** ** The generic API layer (src/app/services/api.ts) *)

Module ApiService.

Inductive Method := GET | POST | PUT | DELETE.

(** What an observer is told: a value, or an error. *)
Inductive Notification (E A : Type) :=
| Next (value : A)
| Error (err : E).
Arguments Next {E A} value.
Arguments Error {E A} err.

(** [HttpErrorResponse.error]: an [ErrorEvent] raised in the browser, or
    the body the server sent with its optional [detail], or nothing. *)
Inductive ErrorBody :=
| ClientErrorEvent (message : string)
| ServerBody (detail : option string)
| NoBody.

Record HttpErrorResponse := mkHttpError {
  error : ErrorBody;
  message : string;
  status : Z
}.

Definition newline : string := String (ascii_of_nat 10) EmptyString.

(** [private handleError(error: HttpErrorResponse)]: the message of the
    [Error] it throws.  A string is truthy when it is not empty. *)
Definition handleError (e : HttpErrorResponse) : string :=
  let fromMessage :=
    if negb (String.eqb (message e) "") then message e
    else "Server Error Code: " +:+ pretty (status e) +:+ newline
         +:+ "Message: " +:+ message e in
  match error e with
  | ClientErrorEvent m => "Client Error: " +:+ m
  | ServerBody (Some d) => if negb (String.eqb d "") then d else fromMessage
  | ServerBody None | NoBody => fromMessage
  end.

Definition baseUrl : string := "http://localhost:8000/api".

(** [httpOptions.headers] *)
Definition jsonHeaders : list (string * string) :=
  [("Content-Type", "application/json")].

Section Http.

(** [Payload] is what a call sends (query parameters or a body), [T] what
    it expects back: the type argument of [get<T>], [post<T>], ... *)
Context {Payload T : Type}.

Record HttpRequest := mkRequest {
  method : Method;
  url : string;
  headers : list (string * string);
  params : option Payload;
  body : option Payload
}.

(** The other side of [HttpClient]: its answer to a request may depend on
    the requests it received before. *)
Definition Backend := list HttpRequest -> HttpRequest -> HttpErrorResponse + T.

(** A cold observable: subscribing runs it against the log of the requests
    issued so far, and yields one notification and the extended log. *)
Definition Observable (E A : Type) :=
  list HttpRequest -> Notification E A * list HttpRequest.

(** [this.http.get/post/put/delete(...)]: each subscription issues the
    request once. *)
Definition send (backend : Backend) (r : HttpRequest)
  : Observable HttpErrorResponse T :=
  fun log =>
    (match backend log r with
     | inr v => Next v
     | inl e => Error e
     end, log ++ [r]).

(** [retry(count)]: on an error, subscribe to the source again, at most
    [count] more times; immediately, without delay. *)
Fixpoint retry {E A} (count : nat) (source : Observable E A)
  : Observable E A :=
  fun log =>
    match source log with
    | (Next v, log') => (Next v, log')
    | (Error e, log') =>
        match count with
        | O => (Error e, log')
        | S count' => retry count' source log'
        end
    end.

(** [catchError(selector)] where the selector rethrows:
    [throwError(() => new Error(selector(e)))]. *)
Definition catchError {E E' A} (selector : E -> E')
  (source : Observable E A) : Observable E' A :=
  fun log =>
    match source log with
    | (Next v, log') => (Next v, log')
    | (Error e, log') => (Error (selector e), log')
    end.

(** [new Observable(observer => source.subscribe({ next: v => {
    observer.next(f(v)); observer.complete() }, error: e =>
    observer.error(e) }))], the wrapper the services build. *)
Definition mapNext {E A B} (f : A -> B) (source : Observable E A)
  : Observable E B :=
  fun log =>
    match source log with
    | (Next v, log') => (Next (f v), log')
    | (Error e, log') => (Error e, log')
    end.

(** [get<T>(endpoint, params?)] *)
Definition get (backend : Backend) (endpoint : string)
  (params : option Payload) : Observable string T :=
  let url := baseUrl +:+ endpoint in
  catchError handleError
    (retry 1 (send backend (mkRequest GET url jsonHeaders params None))).

(** [post<T>(endpoint, data)] *)
Definition post (backend : Backend) (endpoint : string) (data : Payload)
  : Observable string T :=
  let url := baseUrl +:+ endpoint in
  catchError handleError
    (send backend (mkRequest POST url jsonHeaders None (Some data))).

(** [put<T>(endpoint, data)] *)
Definition put (backend : Backend) (endpoint : string) (data : Payload)
  : Observable string T :=
  let url := baseUrl +:+ endpoint in
  catchError handleError
    (send backend (mkRequest PUT url jsonHeaders None (Some data))).

(** [delete<T>(endpoint)] *)
Definition delete (backend : Backend) (endpoint : string)
  : Observable string T :=
  let url := baseUrl +:+ endpoint in
  catchError handleError
    (send backend (mkRequest DELETE url jsonHeaders None None)).

(** [upload<T>(endpoint, formData)]: a POST without the JSON header. *)
Definition upload (backend : Backend) (endpoint : string)
  (formData : Payload) : Observable string T :=
  let url := baseUrl +:+ endpoint in
  catchError handleError
    (send backend (mkRequest POST url [] None (Some formData))).

(** [healthCheck()] *)
Definition healthCheck (backend : Backend) : Observable string T :=
  get backend "/health" None.

(** The requests a subscription added to the log. *)
Definition issued (n : nat) (log log' : list HttpRequest) : Prop :=
  exists rs, log' = log ++ rs /\ List.length rs = n.

End Http.

Arguments HttpRequest : clear implicits.
Arguments Backend : clear implicits.
Arguments Observable : clear implicits.

End ApiService.

Import ApiService.

(** Truthiness of an optional number: [!!n] is false for [undefined] and
    for [0]. *)
Definition truthyNumber (n : option Z) : bool :=
  match n with
  | None => false
  | Some z => negb (z =? 0)
  end.

(** ** The NLP service (src/app/services/nlp.ts) *)

Module NlpService.

Section Service.

(** [constructor(private apiService: ApiService)] *)
Variable backend : Backend RefineTextRequest.t RefinementResult.t.

(** [refineText(request)] *)
Definition refineText (request : RefineTextRequest.t)
  : Observable RefineTextRequest.t string RefinementResult.t :=
  post backend "/nlp/refine-text" request.

(** [quickRefine(text, novelId?)] *)
Definition quickRefine (text : jsstring) (novelId : option Z)
  : Observable RefineTextRequest.t string RefinementResult.t :=
  let request :=
    {| RefineTextRequest.text := text;
       RefineTextRequest.use_glossary := truthyNumber novelId;
       RefineTextRequest.novel_id := novelId |} in
  refineText request.

(** [previewRefinement(text, novelId?)] *)
Definition previewRefinement (text : jsstring) (novelId : option Z)
  : Observable RefineTextRequest.t string RefinementResult.t :=
  quickRefine text novelId.

End Service.

Definition emptyMsg : string := "Text cannot be empty".
Definition tooLongMsg : string :=
  "Text is too long (maximum 50,000 characters)".
Definition tooShortMsg : string :=
  "Text is too short (minimum 10 characters)".

(** [validateTextForProcessing(text)] *)
Definition validateTextForProcessing (text : jsstring) : ValidationResult :=
  let errors := [] in
  let errors := pushIf (isBlank text) emptyMsg errors in
  let errors := pushIf (50000 <? jslength text) tooLongMsg errors in
  let errors := pushIf (jslength text <? 10) tooShortMsg errors in
  validationOf errors.

(** What an observer of a polling observable is told, in order. *)
Inductive ObserverEvent (A : Type) :=
| Emitted (value : A)
| Failed (message : string)
| Completed.
Arguments Emitted {A} value.
Arguments Failed {A} message.
Arguments Completed {A}.

Section StatusService.

(** [constructor(private apiService: ApiService)]; the status endpoint
    takes no payload. *)
Variable backend : Backend unit ProcessingStatus.t.

(** [getProcessingStatus(novelId)] *)
Definition getProcessingStatus (novelId : Z)
  : Observable unit string ProcessingStatus.t :=
  get backend ("/nlp/processing-status/" +:+ pretty novelId) None.

(** [pollProcessingStatus(novelId, intervalMs = 5000)], watched for
    [polls] polls: what the observer has been told by then, and the
    requests issued.  The delay between two polls is not part of the
    model. *)
Fixpoint pollProcessingStatus (polls : nat) (novelId : Z)
  (intervalMs : option Z) (log : list (HttpRequest unit))
  : list (ObserverEvent ProcessingStatus.t) * list (HttpRequest unit) :=
  match polls with
  | O => ([], log)
  | S polls' =>
      match getProcessingStatus novelId log with
      | (Next status, log') =>
          if Qlt_le_dec (ProcessingStatus.completion_percentage status) 100
          then
            let (events, log'') :=
              pollProcessingStatus polls' novelId intervalMs log' in
            (Emitted status :: events, log'')
          else ([Emitted status; Completed], log')
      | (Error error, log') => ([Failed error], log')
      end
  end.

End StatusService.

(** The object [getRefinementQuality] returns. *)
Record RefinementQuality := mkQuality {
  originalWordCount : Z;
  refinedWordCount : Z;
  lengthChangePercentage : Q;
  originalSentenceCount : Z;
  refinedSentenceCount : Z;
  originalAvgWordsPerSentence : Q;
  refinedAvgWordsPerSentence : Q;
  readabilityImprovement : bool
}.

(** [Math.round(x * 100) / 100]; [Math.round] takes a half upwards. *)
Definition round2 (x : Q) : Q :=
  (inject_Z (Qfloor (x * 100 + (1 # 2))) / 100)%Q.

(** [getRefinementQuality(originalText, refinedText)] *)
Definition getRefinementQuality (originalText refinedText : jsstring)
  : RefinementQuality :=
  let originalWords :=
    Z.of_nat (List.length (splitOn isWhiteSpace originalText)) in
  let refinedWords :=
    Z.of_nat (List.length (splitOn isWhiteSpace refinedText)) in
  let lengthChangePercentage :=
    ((inject_Z (refinedWords - originalWords) / inject_Z originalWords)
     * 100)%Q in
  let originalSentences :=
    Z.of_nat (List.length (splitOn isSentenceEnd originalText)) in
  let refinedSentences :=
    Z.of_nat (List.length (splitOn isSentenceEnd refinedText)) in
  let originalAvgWordsPerSentence :=
    (inject_Z originalWords / inject_Z originalSentences)%Q in
  let refinedAvgWordsPerSentence :=
    (inject_Z refinedWords / inject_Z refinedSentences)%Q in
  {| originalWordCount := originalWords;
     refinedWordCount := refinedWords;
     lengthChangePercentage := round2 lengthChangePercentage;
     originalSentenceCount := originalSentences;
     refinedSentenceCount := refinedSentences;
     originalAvgWordsPerSentence := round2 originalAvgWordsPerSentence;
     refinedAvgWordsPerSentence := round2 refinedAvgWordsPerSentence;
     readabilityImprovement :=
       if Qlt_le_dec refinedAvgWordsPerSentence originalAvgWordsPerSentence
       then true else false |}.

End NlpService.

(** ** The glossary service (src/app/services/glossary.ts) *)

Module GlossaryService.

(** The query parameters of [getTerms]. *)
Record TermsParams := mkParams {
  active_only : bool;
  term_type : option jsstring
}.

(** A value of [typeStats]: a number by its declared type, and a string
    once [+ 1] has met an inherited member. *)
Inductive Count :=
| Num (n : Z)
| Str (s : jsstring).

(** The object [getTermStatistics] emits; [typeBreakdown] is given by its
    own properties. *)
Record TermStatistics := mkStatistics {
  totalTerms : Z;
  activeTerms : Z;
  inactiveTerms : Z;
  typeBreakdown : gmap jsstring Count;
  averageFrequency : Q;
  mostFrequentTerm : option GlossaryTerm.t
}.

Definition originalEmptyMsg : string := "Original term cannot be empty".
Definition preferredEmptyMsg : string := "Preferred term cannot be empty".
Definition typeEmptyMsg : string := "Term type cannot be empty".
Definition duplicateMsg : string :=
  "A term with this original term already exists".
Definition originalTooLongMsg : string :=
  "Original term is too long (maximum 200 characters)".
Definition preferredTooLongMsg : string :=
  "Preferred term is too long (maximum 200 characters)".

(** The callback of [getFrequentTerms]:
    [terms.sort((a, b) => b.frequency - a.frequency).slice(0, limit)] *)
Definition frequentTerms (limit : Z) (terms : list GlossaryTerm.t)
  : list GlossaryTerm.t :=
  JsArray.slice 0 limit
    (JsArray.sort
       (fun a b => GlossaryTerm.frequency b - GlossaryTerm.frequency a)
       terms).

(** [typeStats[term.term_type] = (typeStats[term.term_type] || 0) + 1],
    on [typeStats = {}].  A number other than 0, a non-empty string, a
    function and [Object.prototype] are truthy; [+ 1] adds to a number and
    appends ['1'] to the string of anything else. *)
Definition countType (typeStats : gmap jsstring Count)
  (term : GlossaryTerm.t) : gmap jsstring Count :=
  let key := GlossaryTerm.term_type term in
  let value :=
    match JsObject.get typeStats key with
    | JsObject.Own (Num n) => Num ((if n =? 0 then 0 else n) + 1)
    | JsObject.Own (Str s) =>
        if truthy s then Str (s ++ js "1") else Num (0 + 1)
    | JsObject.Method name => Str (JsObject.functionSource name ++ js "1")
    | JsObject.Prototype => Str (JsObject.prototypeString ++ js "1")
    | JsObject.Undefined => Num (0 + 1)
    end in
  JsObject.set typeStats key value.

(** The callback of [getTermStatistics]. *)
Definition termStatistics (terms : list GlossaryTerm.t) : TermStatistics :=
  let activeTerms := List.filter GlossaryTerm.is_active terms in
  let inactiveTerms :=
    List.filter (fun t => negb (GlossaryTerm.is_active t)) terms in
  let typeStats := fold_left countType terms ∅ in
  {| totalTerms := Z.of_nat (List.length terms);
     activeTerms := Z.of_nat (List.length activeTerms);
     inactiveTerms := Z.of_nat (List.length inactiveTerms);
     typeBreakdown := typeStats;
     averageFrequency :=
       if Z.of_nat (List.length terms) >? 0 then
         (inject_Z
            (fold_left (fun sum term => sum + GlossaryTerm.frequency term)%Z
               terms 0%Z)
          / inject_Z (Z.of_nat (List.length terms)))%Q
       else 0%Q;
     mostFrequentTerm :=
       if Z.of_nat (List.length terms) >? 0 then
         JsArray.reduce1
           (fun max term =>
              if GlossaryTerm.frequency term >? GlossaryTerm.frequency max
              then term else max)
           terms
       else None |}.

Section Service.

(** [String.prototype.toLowerCase], a built-in of the platform. *)
Variable toLowerCase : jsstring -> jsstring.

(** [constructor(private apiService: ApiService)] *)
Variable backend : Backend TermsParams (list GlossaryTerm.t).

(** [getTerms(novelId, termType?, activeOnly = true)] *)
Definition getTerms (novelId : Z) (termType : option jsstring)
  (activeOnly : option bool)
  : Observable TermsParams string (list GlossaryTerm.t) :=
  let activeOnly := default true activeOnly in
  let params :=
    match termType with
    | Some ty =>
        if truthy ty then mkParams activeOnly (Some ty)
        else mkParams activeOnly None
    | None => mkParams activeOnly None
    end in
  get backend ("/glossary/terms/" +:+ pretty novelId) (Some params).

(** [getFrequentTerms(novelId, limit = 20)] *)
Definition getFrequentTerms (novelId : Z) (limit : option Z)
  : Observable TermsParams string (list GlossaryTerm.t) :=
  let limit := default 20 limit in
  mapNext (frequentTerms limit) (getTerms novelId None None).

(** [validateTerm(term, existingTerms)] *)
Definition validateTerm (term : GlossaryTermCreate.t)
  (existingTerms : list GlossaryTerm.t) : ValidationResult :=
  let errors := [] in
  let errors :=
    pushIf (isBlank (GlossaryTermCreate.original_term term))
      originalEmptyMsg errors in
  let errors :=
    pushIf (isBlank (GlossaryTermCreate.preferred_term term))
      preferredEmptyMsg errors in
  let errors :=
    pushIf (isBlank (GlossaryTermCreate.term_type term))
      typeEmptyMsg errors in
  let duplicate :=
    JsArray.find
      (fun existing =>
         jsstring_eqb
           (toLowerCase (GlossaryTerm.original_term existing))
           (toLowerCase (GlossaryTermCreate.original_term term)))
      existingTerms in
  let errors :=
    pushIf (match duplicate with Some _ => true | None => false end)
      duplicateMsg errors in
  let errors :=
    pushIf (truthy (GlossaryTermCreate.original_term term)
            && (200 <? jslength (GlossaryTermCreate.original_term term)))
      originalTooLongMsg errors in
  let errors :=
    pushIf (truthy (GlossaryTermCreate.preferred_term term)
            && (200 <? jslength (GlossaryTermCreate.preferred_term term)))
      preferredTooLongMsg errors in
  validationOf errors.

(** [getTermStatistics(novelId)] *)
Definition getTermStatistics (novelId : Z)
  : Observable TermsParams string TermStatistics :=
  mapNext termStatistics (getTerms novelId None (Some false)).

End Service.

(** How the callback of [getTermsByType] ends: with
    [observer.next(groupedTerms); observer.complete()], or with the
    [TypeError] thrown in its loop, after which the observer is told
    nothing. *)
Inductive Grouping :=
| Grouped (groupedTerms : gmap jsstring (list GlossaryTerm.t))
| TypeError.

(** One step of the grouping of [getTermsByType], on [groupedTerms = {}]:
    [if (!grouped[type]) grouped[type] = []; grouped[type].push(term)].
    An array, even an empty one, and every inherited member are truthy;
    an inherited member has no [push], so that calling it throws. *)
Definition groupTerm (groupedTerms : gmap jsstring (list GlossaryTerm.t))
  (term : GlossaryTerm.t) : Grouping :=
  let key := GlossaryTerm.term_type term in
  let groupedTerms :=
    match JsObject.get groupedTerms key with
    | JsObject.Undefined => <[key := []]> groupedTerms
    | _ => groupedTerms
    end in
  match JsObject.get groupedTerms key with
  | JsObject.Own group => Grouped (<[key := group ++ [term]]> groupedTerms)
  | _ => TypeError
  end.

(** The callback of [getTermsByType]: [terms.forEach] runs the step term
    by term and stops where it throws. *)
Definition termsByType (terms : list GlossaryTerm.t) : Grouping :=
  fold_left
    (fun grouping term =>
       match grouping with
       | Grouped groupedTerms => groupTerm groupedTerms term
       | TypeError => TypeError
       end)
    terms (Grouped ∅).

Section Queries.

Variable toLowerCase : jsstring -> jsstring.

Variable backend : Backend TermsParams (list GlossaryTerm.t).

(** [getTermsByType(novelId)]; [Next (Grouped g)] is the emission of [g],
    [Next TypeError] the delivery of terms on which the callback throws. *)
Definition getTermsByType (novelId : Z)
  : Observable TermsParams string Grouping :=
  mapNext termsByType (getTerms backend novelId None None).

(** The predicate of the filter of [searchTerms]. *)
Definition matchesQuery (searchQuery : jsstring) (term : GlossaryTerm.t)
  : bool :=
  includes (toLowerCase (GlossaryTerm.original_term term))
    (toLowerCase searchQuery)
  || includes (toLowerCase (GlossaryTerm.preferred_term term))
       (toLowerCase searchQuery)
  || match GlossaryTerm.context term with
     | Some context =>
         truthy context
         && includes (toLowerCase context) (toLowerCase searchQuery)
     | None => false
     end.

(** [searchTerms(novelId, searchQuery)] *)
Definition searchTerms (novelId : Z) (searchQuery : jsstring)
  : Observable TermsParams string (list GlossaryTerm.t) :=
  mapNext (List.filter (matchesQuery searchQuery))
    (getTerms backend novelId None None).

End Queries.

Section Creation.

Variable backend : Backend GlossaryTermCreate.t GlossaryTerm.t.

(** [createTerm(term)] *)
Definition createTerm (term : GlossaryTermCreate.t)
  : Observable GlossaryTermCreate.t string GlossaryTerm.t :=
  post backend "/glossary/terms" term.

(** [createTermFromSuggestion(novelId, originalTerm, preferredTerm,
    termType = 'general')] *)
Definition createTermFromSuggestion (novelId : Z)
  (originalTerm preferredTerm : jsstring) (termType : option jsstring)
  : Observable GlossaryTermCreate.t string GlossaryTerm.t :=
  let termType := default (js "general") termType in
  let term :=
    {| GlossaryTermCreate.novel_id := novelId;
       GlossaryTermCreate.original_term := originalTerm;
       GlossaryTermCreate.preferred_term := preferredTerm;
       GlossaryTermCreate.term_type := termType;
       GlossaryTermCreate.context := None |} in
  createTerm term.

End Creation.

End GlossaryService.

(** ** The novel service (src/app/services/novel.ts) *)

Module NovelService.

(** The object [getProcessingStats] emits, its two quotients as the exact
    rationals that the doubles of the engine approximate. *)
Record ProcessingStats := mkStats {
  totalChapters : Z;
  processedChapters : Z;
  completionPercentage : Q;
  averageWordCount : Q
}.

(** The callback of [getProcessingStats], in exact arithmetic. *)
Definition processingStats (novel : Novel.t) : ProcessingStats :=
  let totalChapters := Z.of_nat (List.length (Novel.chapters novel)) in
  let processedChapters :=
    Z.of_nat
      (List.length (List.filter Chapter.is_processed (Novel.chapters novel))) in
  {| totalChapters := totalChapters;
     processedChapters := processedChapters;
     completionPercentage :=
       if totalChapters >? 0 then
         ((inject_Z processedChapters / inject_Z totalChapters) * 100)%Q
       else 0%Q;
     averageWordCount :=
       if totalChapters >? 0 then
         (inject_Z
            (fold_left (fun sum ch => sum + Chapter.word_count ch)%Z
               (Novel.chapters novel) 0%Z)
          / inject_Z totalChapters)%Q
       else 0%Q |}.


Section Service.

(** [constructor(private apiService: ApiService)]; the novel endpoints
    take no payload. *)
Variable backend : Backend unit Novel.t.

(** [getNovelById(novelId)] *)
Definition getNovelById (novelId : Z) : Observable unit string Novel.t :=
  get backend ("/scraper/novels/" +:+ pretty novelId) None.

(** [getProcessingStats(novelId)] *)
Definition getProcessingStats (novelId : Z)
  : Observable unit string ProcessingStats :=
  mapNext processingStats (getNovelById novelId).

End Service.

Section Listing.

(** The list endpoint takes no payload. *)
Variable backend : Backend unit (list Novel.t).

(** [getNovels()] *)
Definition getNovels : Observable unit string (list Novel.t) :=
  get backend "/scraper/novels" None.

(** [getNovelsWithStatus()] *)
Definition getNovelsWithStatus : Observable unit string (list Novel.t) :=
  getNovels.

(** [checkNovelExists(novelUrl)] *)
Definition checkNovelExists (novelUrl : jsstring)
  : Observable unit string bool :=
  mapNext
    (fun novels =>
       existsb (fun novel => jsstring_eqb (Novel.url novel) novelUrl) novels)
    getNovels.

End Listing.

Section Chapters.

Variable backend : Backend unit Novel.t.

(** [getNovelChapters(novelId)] *)
Definition getNovelChapters (novelId : Z)
  : Observable unit string (list Chapter.t) :=
  mapNext Novel.chapters (getNovelById backend novelId).

End Chapters.

End NovelService.

(** ** The search component
    (src/app/components/novel-search/novel-search.ts) *)

Module NovelSearch.

(** What [await fetch(...)] and [await response.json()] come to: the
    promise is rejected, or there is a response with its [ok] flag, its
    status and, when its body parses to an object, the parsed body. *)
Inductive FetchOutcome (D : Type) :=
| Rejected
| Response (ok : bool) (status : Z) (json : option D).
Arguments Rejected {D}.
Arguments Response {D} ok status json.

(** The body of a request, before [JSON.stringify]. *)
Inductive Body :=
| SearchBody (query source : jsstring)
| ExtractBody (url source : jsstring).

Record FetchRequest := mkFetch {
  url : string;
  method : Method;
  headers : list (string * string);
  body : Body
}.

(** The server behind [fetch]. *)
Definition Fetch (D : Type) :=
  list FetchRequest -> FetchRequest -> FetchOutcome D.

(** The body of a successful extraction: [data.title] and
    [data.chapters_count], each possibly undefined. *)
Record Extraction := mkExtraction {
  title : option jsstring;
  chapters_count : option Z
}.

Section Component.

(** An element of [searchResults: any[]]. *)
Context {Result : Type}.

(** The fields of the component. *)
Record State := mkState {
  searchQuery : jsstring;
  sourceSite : jsstring;
  isSearching : bool;
  searchResults : list Result;
  errorMessage : string
}.

(** A component as its constructor leaves it. *)
Definition initial : State :=
  {| searchQuery := js "";
     sourceSite := js "novelhi.com";
     isSearching := false;
     searchResults := [];
     errorMessage := "" |}.

Definition enterTermMsg : string := "Please enter a search term".
Definition noNovelsMsg : string :=
  "No novels found. Try a different search term.".
Definition searchFailedMsg : string :=
  "Failed to search. Please check if the backend server is running.".

Definition searchRequest (st : State) : FetchRequest :=
  mkFetch "http://localhost:8000/api/scraper/search" POST
    [("Content-Type", "application/json")]
    (SearchBody (searchQuery st) (sourceSite st)).

(** [async searchNovels()], run to its end: the component and the log of
    requests afterwards.  [data.results] is [None] when the body has no
    such property. *)
Definition searchNovels (fetch : Fetch (option (list Result)))
  (st : State) (log : list FetchRequest) : State * list FetchRequest :=
  if negb (truthy (trim (searchQuery st))) then
    ({| searchQuery := searchQuery st;
        sourceSite := sourceSite st;
        isSearching := isSearching st;
        searchResults := searchResults st;
        errorMessage := enterTermMsg |}, log)
  else
    let request := searchRequest st in
    let (results, message) :=
      match fetch log request with
      | Response true _ (Some data) =>
          let results := default [] data in
          (results,
           if Z.of_nat (List.length results) =? 0 then noNovelsMsg else "")
      | Response true _ None
      | Response false _ _
      | Rejected => ([], searchFailedMsg)
      end in
    ({| searchQuery := searchQuery st;
        sourceSite := sourceSite st;
        isSearching := false;
        searchResults := results;
        errorMessage := message |}, log ++ [request]).

(** [`${x}`] of a property that may be undefined. *)
Definition render (x : option jsstring) : jsstring :=
  default (js "undefined") x.

Definition extractedAlert (data : Extraction) : jsstring :=
  js "Successfully extracted novel: " ++ render (title data)
  ++ [10%N] ++ js "Chapters found: "
  ++ render (option_map (fun n : Z => js (pretty n)) (chapters_count data)).

Definition extractFailedAlert : jsstring :=
  js "Failed to extract novel. Please try again.".

Definition extractRequest (st : State) (novelUrl : jsstring) : FetchRequest :=
  mkFetch "http://localhost:8000/api/scraper/extract" POST
    [("Content-Type", "application/json")]
    (ExtractBody novelUrl (sourceSite st)).

(** [async extractNovel(novelUrl)], run to its end: the component, the
    log of requests and the alerts shown. *)
Definition extractNovel (fetch : Fetch Extraction) (novelUrl : jsstring)
  (st : State) (log : list FetchRequest) (alerts : list jsstring)
  : State * list FetchRequest * list jsstring :=
  let request := extractRequest st novelUrl in
  match fetch log request with
  | Response true _ (Some data) =>
      ({| searchQuery := js "";
          sourceSite := sourceSite st;
          isSearching := isSearching st;
          searchResults := [];
          errorMessage := errorMessage st |},
       log ++ [request], alerts ++ [extractedAlert data])
  | Response true _ None
  | Response false _ _
  | Rejected => (st, log ++ [request], alerts ++ [extractFailedAlert])
  end.

End Component.

Arguments State : clear implicits.

End NovelSearch.

(** ** The search component with custom URLs (src/unnamed/part_001) *)

Module CustomSearch.

Import NovelSearch.

(** The body of a request, before [JSON.stringify]. *)
Inductive Body :=
| SearchBody (novel_name : jsstring)
| ExtractBody (novel_url : jsstring) (max_chapters : Z) (use_selenium : bool).

Record FetchRequest := mkFetch {
  url : string;
  method : Method;
  headers : list (string * string);
  body : Body
}.

(** The properties the component reads off a parsed body, each possibly
    undefined. *)
Record Data (Result : Type) := mkData {
  results : option (list Result);
  novel_url : option jsstring;
  status : option jsstring
}.
Arguments mkData {Result} results novel_url status.
Arguments results {Result} d.
Arguments novel_url {Result} d.
Arguments status {Result} d.

Section Component.

Context {Result : Type}.

(** The server behind [fetch]. *)
Definition Fetch :=
  list FetchRequest -> FetchRequest -> FetchOutcome (Data Result).

(** The fields of the component. *)
Record State := mkState {
  searchQuery : jsstring;
  sourceSite : jsstring;
  customUrl : jsstring;
  isSearching : bool;
  searchResults : list Result;
  errorMessage : string
}.

(** The component with its alerts and the requests it has made. *)
Record World := mkWorld {
  component : State;
  requests : list FetchRequest;
  alerts : list jsstring
}.

Definition enterUrlMsg : string := "Please enter a custom URL".
Definition enterTermMsg : string := "Please enter a search term".
Definition noNovelsMsg : string :=
  "No novels found. Try a different search term.".
Definition searchFailedMsg : string :=
  "Failed to search. Please check if the backend server is running.".

Definition withError (st : State) (message : string) : State :=
  {| searchQuery := searchQuery st;
     sourceSite := sourceSite st;
     customUrl := customUrl st;
     isSearching := isSearching st;
     searchResults := searchResults st;
     errorMessage := message |}.

Definition extractRequest (novelUrl : jsstring) : FetchRequest :=
  mkFetch "http://localhost:8000/api/scraper/extract" POST
    [("Content-Type", "application/json")] (ExtractBody novelUrl 10 false).

Definition searchRequest (st : State) : FetchRequest :=
  mkFetch "http://localhost:8000/api/scraper/search" POST
    [("Content-Type", "application/json")] (SearchBody (searchQuery st)).

(** The text of the alert of a started extraction; U+2705 is the check
    mark it opens with. *)
Definition startedAlert (data : Data Result) : jsstring :=
  [0x2705%N] ++ js " Novel extraction started!" ++ [10%N; 10%N]
  ++ js "Novel URL: " ++ render (novel_url data) ++ [10%N]
  ++ js "Status: " ++ render (status data) ++ [10%N; 10%N]
  ++ js "Chapters will be extracted in the background. "
  ++ js "Check the Novel List page to see progress.".

Definition extractFailedAlert : jsstring :=
  js "Failed to extract novel. Please try again.".

(** [async extractNovel(novelUrl)], run to its end. *)
Definition extractNovel (fetch : Fetch) (novelUrl : jsstring) (w : World)
  : World :=
  let request := extractRequest novelUrl in
  match fetch (requests w) request with
  | Response true _ (Some data) =>
      {| component :=
           {| searchQuery := js "";
              sourceSite := sourceSite (component w);
              customUrl := js "";
              isSearching := isSearching (component w);
              searchResults := [];
              errorMessage := errorMessage (component w) |};
         requests := requests w ++ [request];
         alerts := alerts w ++ [startedAlert data] |}
  | Response true _ None
  | Response false _ _
  | Rejected =>
      {| component := component w;
         requests := requests w ++ [request];
         alerts := alerts w ++ [extractFailedAlert] |}
  end.

(** [async searchNovels()], run to its end. *)
Definition searchNovels (fetch : Fetch) (w : World) : World :=
  let st := component w in
  if jsstring_eqb (sourceSite st) (js "custom") then
    if negb (truthy (trim (customUrl st))) then
      {| component := withError st enterUrlMsg;
         requests := requests w;
         alerts := alerts w |}
    else extractNovel fetch (customUrl st) w
  else if negb (truthy (trim (searchQuery st))) then
    {| component := withError st enterTermMsg;
       requests := requests w;
       alerts := alerts w |}
  else
    let request := searchRequest st in
    let (found, message) :=
      match fetch (requests w) request with
      | Response true _ (Some data) =>
          let found := default [] (results data) in
          (found,
           if Z.of_nat (List.length found) =? 0 then noNovelsMsg else "")
      | Response true _ None
      | Response false _ _
      | Rejected => ([], searchFailedMsg)
      end in
    {| component :=
         {| searchQuery := searchQuery st;
            sourceSite := sourceSite st;
            customUrl := customUrl st;
            isSearching := false;
            searchResults := found;
            errorMessage := message |};
       requests := requests w ++ [request];
       alerts := alerts w |}.

End Component.

Arguments State : clear implicits.
Arguments World : clear implicits.
Arguments Fetch : clear implicits.

End CustomSearch.

(** ** The Glossary Store of the back end *)

Module GlossaryStore.

(** Modelled from the spec: the comparator of the order in which the
    store's [get] returns terms; the back end is not among the sources.
    Section 4.3: "ordered by descending frequency then term id". *)
Definition byFrequencyThenId (a b : GlossaryTerm.t) : Z :=
  if GlossaryTerm.frequency b - GlossaryTerm.frequency a =? 0
  then GlossaryTerm.id a - GlossaryTerm.id b
  else GlossaryTerm.frequency b - GlossaryTerm.frequency a.

(** Modelled from the spec: the filter of the store's [get]; the back end
    is not among the sources.  Section 4.3: "[get(novel_id, term_type?,
    active_only)] returns terms filtered accordingly". *)
Definition selected (novel_id : Z) (term_type : option jsstring)
  (active_only : bool) (t : GlossaryTerm.t) : bool :=
  (GlossaryTerm.novel_id t =? novel_id)
  && match term_type with
     | Some ty => jsstring_eqb (GlossaryTerm.term_type t) ty
     | None => true
     end
  && (if active_only then GlossaryTerm.is_active t else true).

(** Modelled from the spec: the store's [get], which answers the request
    of [GlossaryService.getTerms]; the back end is not among the sources.
    Section 4.3: "[get(novel_id, term_type?, active_only)] returns terms
    filtered accordingly, ordered by descending frequency then term id". *)
Definition get (store : list GlossaryTerm.t) (novel_id : Z)
  (term_type : option jsstring) (active_only : bool)
  : list GlossaryTerm.t :=
  JsArray.sort byFrequencyThenId
    (List.filter (selected novel_id term_type active_only) store).

(** Modelled from the spec: a back end whose terms endpoint for the novel
    [novel_id] is the store's [get]; every other request is refused. *)
Definition serve (store : list GlossaryTerm.t) (novel_id : Z)
  : Backend GlossaryService.TermsParams (list GlossaryTerm.t) :=
  fun _ r =>
    match method r, params r with
    | GET, Some p =>
        if String.eqb (url r)
             (baseUrl +:+ "/glossary/terms/" +:+ pretty novel_id)
        then inr (get store novel_id (GlossaryService.term_type p)
                    (GlossaryService.active_only p))
        else inl (mkHttpError NoBody "Not Found" 404)
    | _, _ => inl (mkHttpError NoBody "Not Found" 404)
    end.

End GlossaryStore.

(** * Part II. Properties *)

(** ** Strings and validation results *)

Lemma trimStart_whitespaceOnly s :
  whitespaceOnly s = true -> trimStart s = [].
Proof.
  induction s as [|c s IH]; simpl; [reflexivity|].
  intros H. apply andb_true_iff in H as [Hc Hs].
  rewrite Hc. auto.
Qed.

Lemma trimStart_nil_whitespaceOnly s :
  trimStart s = [] -> whitespaceOnly s = true.
Proof.
  induction s as [|c s IH]; simpl; [reflexivity|].
  destruct (isWhiteSpace c); [auto | discriminate].
Qed.

(** The first unit [trimStart] keeps is not whitespace. *)
Lemma trimStart_head s c r :
  trimStart s = c :: r -> isWhiteSpace c = false.
Proof.
  induction s as [|d s IH]; simpl; [discriminate|].
  destruct (isWhiteSpace d) eqn:Hd; [exact IH|].
  intros E. injection E as -> _. exact Hd.
Qed.

Lemma trim_nil_iff s : trim s = [] <-> whitespaceOnly s = true.
Proof.
  unfold trim, trimEnd. split.
  - intros H. apply trimStart_nil_whitespaceOnly.
    destruct (trimStart s) as [|c r] eqn:E; [reflexivity|].
    exfalso.
    assert (Hnil : trimStart (List.rev (c :: r)) = []).
    { destruct (trimStart (List.rev (c :: r))); [reflexivity|].
      apply (f_equal (@List.length _)) in H.
      rewrite length_rev in H. discriminate. }
    apply trimStart_nil_whitespaceOnly in Hnil.
    unfold whitespaceOnly in Hnil. rewrite forallb_forall in Hnil.
    assert (Hc : isWhiteSpace c = true).
    { apply Hnil. apply in_rev. rewrite rev_involutive. left; reflexivity. }
    apply trimStart_head in E. congruence.
  - intros H. rewrite (trimStart_whitespaceOnly _ H). reflexivity.
Qed.

Lemma jslength_zero_iff s : jslength s = 0 <-> s = [].
Proof.
  unfold jslength. destruct s; simpl; split; intros H;
    try reflexivity; try discriminate; lia.
Qed.

Lemma jslength_repeat c n : jslength (repeat c n) = Z.of_nat n.
Proof. unfold jslength. now rewrite repeat_length. Qed.

(** The emptiness test of both validators is a test on the trimmed
    string. *)
Lemma isBlank_iff s : isBlank s = true <-> trim s = [].
Proof.
  unfold isBlank. rewrite orb_true_iff, Z.eqb_eq, jslength_zero_iff.
  split; [|tauto].
  intros [H|H]; [|exact H].
  destruct s; [reflexivity | discriminate].
Qed.

Lemma isBlank_false_iff s : isBlank s = false <-> trim s <> [].
Proof.
  rewrite <- isBlank_iff. destruct (isBlank s); split; congruence.
Qed.

Lemma valid_validationOf errs :
  valid (validationOf errs) = true <-> errs = [].
Proof.
  unfold validationOf; simpl. rewrite Z.eqb_eq.
  destruct errs; simpl; split; intros H;
    try reflexivity; try discriminate; lia.
Qed.

Lemma invalid_validationOf errs :
  valid (validationOf errs) = false <-> errs <> [].
Proof.
  rewrite <- valid_validationOf.
  destruct (valid (validationOf errs)); split; congruence.
Qed.

Lemma in_pushIf c m errs x :
  In x (pushIf c m errs) <-> In x errs \/ (c = true /\ x = m).
Proof.
  unfold pushIf. destruct c.
  - rewrite in_app_iff. simpl. intuition congruence.
  - intuition congruence.
Qed.

Lemma pushIf_nil c m errs :
  pushIf c m errs = [] <-> errs = [] /\ c = false.
Proof.
  unfold pushIf. destruct c.
  - split; [|intros [_ H]; discriminate].
    intros H. destruct errs; discriminate.
  - tauto.
Qed.

(** ** NlpService.validateTextForProcessing *)

Section TextValidation.

Import NlpService.

(** The errors of a text, one by one. *)
Lemma validateTextForProcessing_errors text x :
  In x (errors (validateTextForProcessing text)) <->
  (trim text = [] /\ x = emptyMsg) \/
  (50000 < jslength text /\ x = tooLongMsg) \/
  (jslength text < 10 /\ x = tooShortMsg).
Proof.
  unfold validateTextForProcessing, validationOf; simpl.
  rewrite !in_pushIf, isBlank_iff, !Z.ltb_lt. simpl. tauto.
Qed.

Lemma validateTextForProcessing_emptyMsg text :
  In emptyMsg (errors (validateTextForProcessing text)) <-> trim text = [].
Proof.
  rewrite validateTextForProcessing_errors. split.
  - intros [[H _]|[[_ E]|[_ E]]]; [exact H | discriminate E ..].
  - intros H. left. split; [exact H | reflexivity].
Qed.

Lemma validateTextForProcessing_tooLongMsg text :
  In tooLongMsg (errors (validateTextForProcessing text)) <->
  50000 < jslength text.
Proof.
  rewrite validateTextForProcessing_errors. split.
  - intros [[_ E]|[[H _]|[_ E]]]; [discriminate E | exact H | discriminate E].
  - intros H. right; left. split; [exact H | reflexivity].
Qed.

Lemma validateTextForProcessing_tooShortMsg text :
  In tooShortMsg (errors (validateTextForProcessing text)) <->
  jslength text < 10.
Proof.
  rewrite validateTextForProcessing_errors. split.
  - intros [[_ E]|[[_ E]|[H _]]]; [discriminate E .. | exact H].
  - intros H. right; right. split; [exact H | reflexivity].
Qed.

Lemma validateTextForProcessing_invalid_iff text :
  valid (validateTextForProcessing text) = false <->
  trim text = [] \/ jslength text < 10 \/ 50000 < jslength text.
Proof.
  unfold validateTextForProcessing.
  rewrite invalid_validationOf, !pushIf_nil, isBlank_false_iff.
  rewrite !Z.ltb_ge. split.
  - intros H.
    destruct (decide (trim text = [])) as [Ht|Ht]; [tauto|].
    destruct (Z_lt_dec (jslength text) 10); [tauto|].
    destruct (Z_lt_dec 50000 (jslength text)); [tauto|].
    exfalso. apply H. repeat split; auto; lia.
  - intros [H|[H|H]] [[[_ Ht] H1] H2]; [tauto | lia | lia].
Qed.

Lemma validateTextForProcessing_valid_iff text :
  valid (validateTextForProcessing text) = true <->
  trim text <> [] /\ 10 <= jslength text <= 50000.
Proof.
  pose proof (validateTextForProcessing_invalid_iff text) as H.
  destruct (valid (validateTextForProcessing text)).
  - split; [intros _ | reflexivity].
    destruct (decide (trim text = [])) as [Ht|Ht].
    + assert (true = false) by (apply H; tauto). discriminate.
    + split; [exact Ht|].
      destruct (Z_lt_dec (jslength text) 10).
      { assert (true = false) by (apply H; tauto). discriminate. }
      destruct (Z_lt_dec 50000 (jslength text)).
      { assert (true = false) by (apply H; tauto). discriminate. }
      lia.
  - split; [discriminate|].
    intros [Ht Hl]. destruct H as [H _].
    destruct (H eq_refl) as [H'|[H'|H']]; [tauto | lia | lia].
Qed.

(** C1, the claim as written: a text is invalid exactly when it is the
    empty string, shorter than 10 or longer than 50,000.  Ten spaces are
    none of the three, and are invalid. *)
Lemma validateTextForProcessing_ten_spaces :
  ~ (forall text,
       valid (validateTextForProcessing text) = false <->
       text = [] \/ jslength text < 10 \/ 50000 < jslength text).
Proof.
  intros H.
  destruct (H (js "          ")) as [H1 _].
  destruct (H1 eq_refl) as [E|[E|E]]; [discriminate E | | ];
    vm_compute in E; discriminate E.
Qed.

(** C1, amended: a text is invalid exactly when its trimmed form is empty
    (the empty string and every whitespace-only string), or it is shorter
    than 10, or longer than 50,000 code units; each of the three has its
    own message.  Length 9 and length 50,001 are invalid; lengths 10 and
    50,000 are valid unless the text is whitespace only. *)
Theorem validateTextForProcessing_bounds text :
  (valid (validateTextForProcessing text) = false <->
   trim text = [] \/ jslength text < 10 \/ 50000 < jslength text) /\
  (In emptyMsg (errors (validateTextForProcessing text)) <->
   trim text = []) /\
  (In tooShortMsg (errors (validateTextForProcessing text)) <->
   jslength text < 10) /\
  (In tooLongMsg (errors (validateTextForProcessing text)) <->
   50000 < jslength text) /\
  (text = [] -> valid (validateTextForProcessing text) = false) /\
  (jslength text = 9 -> valid (validateTextForProcessing text) = false) /\
  (jslength text = 50001 ->
   valid (validateTextForProcessing text) = false) /\
  (jslength text = 10 -> trim text <> [] ->
   valid (validateTextForProcessing text) = true) /\
  (jslength text = 50000 -> trim text <> [] ->
   valid (validateTextForProcessing text) = true).
Proof.
  split; [apply validateTextForProcessing_invalid_iff|].
  split; [apply validateTextForProcessing_emptyMsg|].
  split; [apply validateTextForProcessing_tooShortMsg|].
  split; [apply validateTextForProcessing_tooLongMsg|].
  split; [intros ->; reflexivity|].
  split; [intros E; apply validateTextForProcessing_invalid_iff; lia|].
  split; [intros E; apply validateTextForProcessing_invalid_iff; lia|].
  split; intros E Ht; apply validateTextForProcessing_valid_iff;
    (split; [exact Ht | lia]).
Qed.

(** A text made of one character that is not whitespace does not trim
    to nothing. *)
Lemma trim_repeat c n :
  isWhiteSpace c = false -> (0 < n)%nat -> trim (repeat c n) <> [].
Proof.
  intros Hc Hn. rewrite trim_nil_iff.
  destruct n as [|n]; [lia|]. simpl. rewrite Hc. discriminate.
Qed.

(** The boundary texts of the claim, run. *)
Example validateTextForProcessing_boundaries :
  valid (validateTextForProcessing (repeat 97%N 9)) = false /\
  valid (validateTextForProcessing (repeat 97%N 10)) = true /\
  valid (validateTextForProcessing (repeat 97%N (Z.to_nat 50000))) = true /\
  valid (validateTextForProcessing (repeat 97%N (Z.to_nat 50001))) = false /\
  validateTextForProcessing (js "") =
    mkValidation false [emptyMsg; tooShortMsg] /\
  validateTextForProcessing (js "          ") =
    mkValidation false [emptyMsg].
Proof.
  split; [reflexivity|]. split; [reflexivity|].
  split.
  { apply validateTextForProcessing_valid_iff. split.
    - apply trim_repeat; [reflexivity | lia].
    - rewrite jslength_repeat. lia. }
  split.
  { apply validateTextForProcessing_invalid_iff. right; right.
    rewrite jslength_repeat. lia. }
  split; reflexivity.
Qed.

(** C10: a whitespace-only text is invalid and carries the "empty"
    message whatever its length; emptiness is a test on the trimmed text,
    the two bounds are tests on the length of the text as given. *)
Theorem validateTextForProcessing_whitespace text :
  (whitespaceOnly text = true ->
   valid (validateTextForProcessing text) = false /\
   In emptyMsg (errors (validateTextForProcessing text))) /\
  (In emptyMsg (errors (validateTextForProcessing text)) <->
   jslength (trim text) = 0) /\
  (In tooShortMsg (errors (validateTextForProcessing text)) <->
   jslength text < 10) /\
  (In tooLongMsg (errors (validateTextForProcessing text)) <->
   50000 < jslength text).
Proof.
  split; [|split; [|split]].
  - intros H. apply trim_nil_iff in H. split.
    + apply validateTextForProcessing_invalid_iff. left; exact H.
    + apply validateTextForProcessing_emptyMsg. exact H.
  - rewrite jslength_zero_iff. apply validateTextForProcessing_emptyMsg.
  - apply validateTextForProcessing_tooShortMsg.
  - apply validateTextForProcessing_tooLongMsg.
Qed.

(** Whitespace within the length bounds, and a short word padded to ten
    code units: the first is "empty", the second is long enough. *)
Example validateTextForProcessing_whitespace_run :
  whitespaceOnly (repeat 32%N 12) = true /\
  validateTextForProcessing (repeat 32%N 12) =
    mkValidation false [emptyMsg] /\
  validateTextForProcessing (js "   abc    ") = mkValidation true [] /\
  validateTextForProcessing (js "abc") = mkValidation false [tooShortMsg].
Proof. vm_compute. repeat split. Qed.

End TextValidation.

(** ** GlossaryService.validateTerm *)

Section TermValidation.

Import GlossaryService.

Variable toLowerCase : jsstring -> jsstring.

(** Equality "under case-insensitive comparison", the way the service
    compares: both sides lower-cased. *)
Definition sameIgnoringCase (a b : jsstring) : Prop :=
  toLowerCase a = toLowerCase b.

Definition duplicates (term : GlossaryTermCreate.t)
  (existingTerms : list GlossaryTerm.t) : Prop :=
  exists existing,
    In existing existingTerms /\
    sameIgnoringCase (GlossaryTerm.original_term existing)
      (GlossaryTermCreate.original_term term).

Lemma find_duplicate_iff term existingTerms :
  (match
     JsArray.find
       (fun existing =>
          jsstring_eqb
            (toLowerCase (GlossaryTerm.original_term existing))
            (toLowerCase (GlossaryTermCreate.original_term term)))
       existingTerms
   with Some _ => true | None => false end) = true <->
  duplicates term existingTerms.
Proof.
  unfold JsArray.find, duplicates, sameIgnoringCase, jsstring_eqb.
  match goal with |- context [List.find ?p _] => set (p0 := p) end.
  destruct (List.find p0 existingTerms) as [e|] eqn:E.
  - apply find_some in E as [Hin He]. subst p0. simpl in He.
    apply bool_decide_eq_true in He. split; [eauto | reflexivity].
  - split; [discriminate|].
    intros (e & Hin & He). exfalso.
    pose proof (find_none _ _ E e Hin) as Hn. subst p0. simpl in Hn.
    apply bool_decide_eq_false in Hn. contradiction.
Qed.

Lemma tooLong_iff s :
  truthy s && (200 <? jslength s) = true <-> 200 < jslength s.
Proof.
  rewrite andb_true_iff, Z.ltb_lt. split; [tauto|].
  intros H. split; [|exact H].
  destruct s; [unfold jslength in H; simpl in H; lia | reflexivity].
Qed.

(** The errors of a term, one by one. *)
Lemma validateTerm_errors term existingTerms x :
  In x (errors (validateTerm toLowerCase term existingTerms)) <->
  (trim (GlossaryTermCreate.original_term term) = []
   /\ x = originalEmptyMsg) \/
  (trim (GlossaryTermCreate.preferred_term term) = []
   /\ x = preferredEmptyMsg) \/
  (trim (GlossaryTermCreate.term_type term) = [] /\ x = typeEmptyMsg) \/
  (duplicates term existingTerms /\ x = duplicateMsg) \/
  (200 < jslength (GlossaryTermCreate.original_term term)
   /\ x = originalTooLongMsg) \/
  (200 < jslength (GlossaryTermCreate.preferred_term term)
   /\ x = preferredTooLongMsg).
Proof.
  unfold validateTerm, validationOf; simpl.
  rewrite !in_pushIf, !isBlank_iff, !tooLong_iff, find_duplicate_iff.
  simpl. tauto.
Qed.

Ltac message_cases H :=
  repeat match type of H with
         | _ \/ _ => destruct H as [H|H]
         | _ /\ _ = _ =>
             let E := fresh "E" in
             destruct H as [H E]; try discriminate E
         end.

Lemma validateTerm_duplicateMsg term existingTerms :
  In duplicateMsg (errors (validateTerm toLowerCase term existingTerms)) <->
  duplicates term existingTerms.
Proof.
  rewrite validateTerm_errors. split.
  - intros H. message_cases H. exact H.
  - intros H. do 3 right. left. split; [exact H | reflexivity].
Qed.

Lemma validateTerm_originalTooLongMsg term existingTerms :
  In originalTooLongMsg
    (errors (validateTerm toLowerCase term existingTerms)) <->
  200 < jslength (GlossaryTermCreate.original_term term).
Proof.
  rewrite validateTerm_errors. split.
  - intros H. message_cases H. exact H.
  - intros H. do 4 right. left. split; [exact H | reflexivity].
Qed.

Lemma validateTerm_preferredTooLongMsg term existingTerms :
  In preferredTooLongMsg
    (errors (validateTerm toLowerCase term existingTerms)) <->
  200 < jslength (GlossaryTermCreate.preferred_term term).
Proof.
  rewrite validateTerm_errors. split.
  - intros H. message_cases H. exact H.
  - intros H. do 5 right. split; [exact H | reflexivity].
Qed.

(** An error of any kind makes the term invalid. *)
Lemma validateTerm_error_invalid term existingTerms x :
  In x (errors (validateTerm toLowerCase term existingTerms)) ->
  valid (validateTerm toLowerCase term existingTerms) = false.
Proof.
  unfold validateTerm. intros H. apply invalid_validationOf.
  simpl in H. intros E. rewrite E in H. exact H.
Qed.

Lemma validateTerm_valid_iff term existingTerms :
  valid (validateTerm toLowerCase term existingTerms) = true <->
  trim (GlossaryTermCreate.original_term term) <> [] /\
  trim (GlossaryTermCreate.preferred_term term) <> [] /\
  trim (GlossaryTermCreate.term_type term) <> [] /\
  ~ duplicates term existingTerms /\
  jslength (GlossaryTermCreate.original_term term) <= 200 /\
  jslength (GlossaryTermCreate.preferred_term term) <= 200.
Proof.
  unfold validateTerm.
  rewrite valid_validationOf, !pushIf_nil, !isBlank_false_iff.
  rewrite <- !not_true_iff_false, !tooLong_iff, find_duplicate_iff.
  split.
  - intros (((((( _ & H1) & H2) & H3) & H4) & H5) & H6).
    repeat split; auto; lia.
  - intros (H1 & H2 & H3 & H4 & H5 & H6).
    repeat split; auto; lia.
Qed.

(** C2: the validator reports the duplicate error, and with it the term
    as invalid, if and only if some existing term has the same
    [original_term] under case-insensitive comparison. *)
Theorem validateTerm_duplicate term existingTerms :
  (In duplicateMsg (errors (validateTerm toLowerCase term existingTerms)) <->
   exists existing,
     In existing existingTerms /\
     toLowerCase (GlossaryTerm.original_term existing) =
     toLowerCase (GlossaryTermCreate.original_term term)) /\
  (In duplicateMsg (errors (validateTerm toLowerCase term existingTerms)) ->
   valid (validateTerm toLowerCase term existingTerms) = false) /\
  ((forall x,
      In x (errors (validateTerm toLowerCase term existingTerms)) ->
      x = duplicateMsg) ->
   (valid (validateTerm toLowerCase term existingTerms) = false <->
    duplicates term existingTerms)).
Proof.
  split; [apply validateTerm_duplicateMsg|].
  split; [apply validateTerm_error_invalid|].
  intros Honly. split.
  - intros Hinv. apply validateTerm_duplicateMsg.
    destruct (errors (validateTerm toLowerCase term existingTerms))
      as [|x errs] eqn:E.
    + exfalso. revert Hinv. unfold validateTerm in *.
      rewrite invalid_validationOf. simpl in E. congruence.
    + rewrite <- (Honly x); left; reflexivity.
  - intros Hd. apply (validateTerm_error_invalid _ _ duplicateMsg).
    apply validateTerm_duplicateMsg. exact Hd.
Qed.

(** The checks of the validator, field by field: a term is valid only
    when its three fields are non-empty after trimming and both term
    fields have at most 200 code units; the length errors appear exactly
    above 200. *)
Lemma validateTerm_field_checks term existingTerms :
  (valid (validateTerm toLowerCase term existingTerms) = true ->
   trim (GlossaryTermCreate.original_term term) <> [] /\
   trim (GlossaryTermCreate.preferred_term term) <> [] /\
   trim (GlossaryTermCreate.term_type term) <> [] /\
   jslength (GlossaryTermCreate.original_term term) <= 200 /\
   jslength (GlossaryTermCreate.preferred_term term) <= 200) /\
  (In originalTooLongMsg
     (errors (validateTerm toLowerCase term existingTerms)) <->
   200 < jslength (GlossaryTermCreate.original_term term)) /\
  (In preferredTooLongMsg
     (errors (validateTerm toLowerCase term existingTerms)) <->
   200 < jslength (GlossaryTermCreate.preferred_term term)) /\
  (jslength (GlossaryTermCreate.original_term term) = 201 \/
   jslength (GlossaryTermCreate.preferred_term term) = 201 ->
   valid (validateTerm toLowerCase term existingTerms) = false) /\
  (trim (GlossaryTermCreate.original_term term) <> [] ->
   trim (GlossaryTermCreate.preferred_term term) <> [] ->
   trim (GlossaryTermCreate.term_type term) <> [] ->
   ~ duplicates term existingTerms ->
   jslength (GlossaryTermCreate.original_term term) <= 200 ->
   jslength (GlossaryTermCreate.preferred_term term) <= 200 ->
   valid (validateTerm toLowerCase term existingTerms) = true).
Proof.
  split.
  { intros H. apply validateTerm_valid_iff in H. tauto. }
  split; [apply validateTerm_originalTooLongMsg|].
  split; [apply validateTerm_preferredTooLongMsg|].
  split.
  - intros [H|H].
    + apply (validateTerm_error_invalid _ _ originalTooLongMsg).
      apply validateTerm_originalTooLongMsg. lia.
    + apply (validateTerm_error_invalid _ _ preferredTooLongMsg).
      apply validateTerm_preferredTooLongMsg. lia.
  - intros. apply validateTerm_valid_iff. tauto.
Qed.

End TermValidation.

(** "Elyra" is in the glossary of novel 1; "elyra" is then a duplicate,
    "Elara" is not. *)
Definition elyra : GlossaryTerm.t :=
  GlossaryTerm.mk 1 1 (js "Elyra") (js "Elyra") (js "character") None 3 true
    (js "2025-01-01") (js "2025-01-01").

Example validateTerm_elyra :
  GlossaryService.validateTerm asciiToLowerCase
    (GlossaryTermCreate.mk 1 (js "elyra") (js "Elyra") (js "character") None)
    [elyra]
  = mkValidation false [GlossaryService.duplicateMsg] /\
  GlossaryService.validateTerm asciiToLowerCase
    (GlossaryTermCreate.mk 1 (js "Elara") (js "Elara") (js "character") None)
    [elyra]
  = mkValidation true [].
Proof. vm_compute. split; reflexivity. Qed.

(** Term fields of 200 and of 201 code units. *)
Example validateTerm_length_boundary :
  valid (GlossaryService.validateTerm asciiToLowerCase
           (GlossaryTermCreate.mk 1 (repeat 97%N 200) (repeat 98%N 200)
              (js "place") None) [elyra]) = true /\
  GlossaryService.validateTerm asciiToLowerCase
    (GlossaryTermCreate.mk 1 (repeat 97%N 201) (js "b") (js "place") None)
    [elyra]
  = mkValidation false [GlossaryService.originalTooLongMsg] /\
  GlossaryService.validateTerm asciiToLowerCase
    (GlossaryTermCreate.mk 1 (js "a") (repeat 98%N 201) (js "place") None)
    [elyra]
  = mkValidation false [GlossaryService.preferredTooLongMsg] /\
  GlossaryService.validateTerm asciiToLowerCase
    (GlossaryTermCreate.mk 1 (js "  ") (js "b") (js "") None) [elyra]
  = mkValidation false
      [GlossaryService.originalEmptyMsg; GlossaryService.typeEmptyMsg].
Proof. vm_compute. repeat split. Qed.

(** ** ApiService: what a call sends, and how often *)

Section ApiRequests.

Context {Payload T : Type}.
Variable backend : Backend Payload T.

(** What the caller is told of an answer of the back end: its value, or
    the message [handleError] makes of its error. *)
Definition surfaced (answer : HttpErrorResponse + T)
  : Notification string T :=
  match answer with
  | inr v => Next v
  | inl e => Error (handleError e)
  end.

Lemma catchError_send r log :
  catchError handleError (send backend r) log
  = (surfaced (backend log r), log ++ [r]).
Proof.
  unfold catchError, send, surfaced.
  destruct (backend log r); reflexivity.
Qed.

Lemma post_run endpoint data log :
  post backend endpoint data log
  = (surfaced
       (backend log
          (mkRequest POST (baseUrl +:+ endpoint) jsonHeaders None
             (Some data))),
     log ++ [mkRequest POST (baseUrl +:+ endpoint) jsonHeaders None
               (Some data)]).
Proof. unfold post. apply catchError_send. Qed.

Lemma put_run endpoint data log :
  put backend endpoint data log
  = (surfaced
       (backend log
          (mkRequest PUT (baseUrl +:+ endpoint) jsonHeaders None
             (Some data))),
     log ++ [mkRequest PUT (baseUrl +:+ endpoint) jsonHeaders None
               (Some data)]).
Proof. unfold put. apply catchError_send. Qed.

Lemma delete_run endpoint log :
  delete backend endpoint log
  = (surfaced
       (backend log
          (mkRequest DELETE (baseUrl +:+ endpoint) jsonHeaders None None)),
     log ++ [mkRequest DELETE (baseUrl +:+ endpoint) jsonHeaders None None]).
Proof. unfold delete. apply catchError_send. Qed.

Lemma upload_run endpoint formData log :
  upload backend endpoint formData log
  = (surfaced
       (backend log
          (mkRequest POST (baseUrl +:+ endpoint) [] None (Some formData))),
     log ++ [mkRequest POST (baseUrl +:+ endpoint) [] None (Some formData)]).
Proof. unfold upload. apply catchError_send. Qed.

(** A GET that is answered at once is issued once. *)
Lemma get_first_answer endpoint params log v :
  backend log (mkRequest GET (baseUrl +:+ endpoint) jsonHeaders params None)
  = inr v ->
  get backend endpoint params log
  = (Next v,
     log ++ [mkRequest GET (baseUrl +:+ endpoint) jsonHeaders params None]).
Proof.
  intros H. unfold get, catchError, retry, send. rewrite H. reflexivity.
Qed.

(** A GET that fails is issued a second time, and the caller is told the
    outcome of the second attempt only. *)
Lemma get_second_answer endpoint params log e :
  let r := mkRequest GET (baseUrl +:+ endpoint) jsonHeaders params None in
  backend log r = inl e ->
  get backend endpoint params log
  = (surfaced (backend (log ++ [r]) r), (log ++ [r]) ++ [r]).
Proof.
  intros r H. unfold get, catchError, retry, send. fold r. rewrite H.
  unfold surfaced. destruct (backend (log ++ [r]) r); reflexivity.
Qed.

Lemma issued_one (log : list (HttpRequest Payload)) r :
  issued 1 log (log ++ [r]).
Proof. exists [r]. split; reflexivity. Qed.

Lemma issued_two (log : list (HttpRequest Payload)) r :
  issued 2 log ((log ++ [r]) ++ [r]).
Proof. exists [r; r]. split; [now rewrite <- app_assoc | reflexivity]. Qed.

Lemma issued_count n (log log' : list (HttpRequest Payload)) :
  issued n log log' -> List.length log' = (List.length log + n)%nat.
Proof. intros (rs & -> & <-). apply length_app. Qed.

(** C5, amended: a POST, PUT, DELETE or upload is issued exactly once,
    and its failure is surfaced without another attempt; a GET whose first
    attempt fails is issued a second time, at once, and only the outcome
    of that second attempt is surfaced: its value when it succeeds, its
    error when it fails too.  A GET is never issued a third time. *)
Theorem api_attempts endpoint params data log :
  (let r := mkRequest POST (baseUrl +:+ endpoint) jsonHeaders None
              (Some data) in
   post backend endpoint data log
   = (surfaced (backend log r), log ++ [r])) /\
  (let r := mkRequest PUT (baseUrl +:+ endpoint) jsonHeaders None
              (Some data) in
   put backend endpoint data log
   = (surfaced (backend log r), log ++ [r])) /\
  (let r := mkRequest DELETE (baseUrl +:+ endpoint) jsonHeaders None None in
   delete backend endpoint log
   = (surfaced (backend log r), log ++ [r])) /\
  (let r := mkRequest POST (baseUrl +:+ endpoint) [] None (Some data) in
   upload backend endpoint data log
   = (surfaced (backend log r), log ++ [r])) /\
  (let r := mkRequest GET (baseUrl +:+ endpoint) jsonHeaders params None in
   match backend log r with
   | inr v => get backend endpoint params log = (Next v, log ++ [r])
   | inl _ =>
       get backend endpoint params log
       = (surfaced (backend (log ++ [r]) r), (log ++ [r]) ++ [r])
   end).
Proof.
  split; [apply post_run|].
  split; [apply put_run|].
  split; [apply delete_run|].
  split; [apply upload_run|].
  intros r. destruct (backend log r) as [e|v] eqn:E.
  - exact (get_second_answer endpoint params log e E).
  - exact (get_first_answer endpoint params log v E).
Qed.

End ApiRequests.

(** A back end that is down, one that fails once, and the error both
    give. *)
Definition unavailable : HttpErrorResponse :=
  mkHttpError (ServerBody (Some "Service Unavailable")) "Http failure" 503.

Definition down : Backend unit Z := fun _ _ => inl unavailable.

Definition failsOnce : Backend unit Z :=
  fun log _ =>
    match log with
    | [] => inl unavailable
    | _ :: _ => inr 200
    end.

Definition healthRequest : HttpRequest unit :=
  mkRequest GET "http://localhost:8000/api/health" jsonHeaders None None.

(** C5, the claim as written: a failing request of the generic layer is
    not issued again before its error is surfaced.  A failing GET is: the
    back end sees the request twice before the caller sees the error, and
    when the second attempt succeeds the caller never sees the failure. *)
Lemma get_reissues_failed_request :
  get down "/health" None []
  = (Error "Service Unavailable", [healthRequest; healthRequest]) /\
  get failsOnce "/health" None []
  = (Next 200, [healthRequest; healthRequest]) /\
  ~ issued 1 [] (snd (get down "/health" None [])).
Proof.
  split; [reflexivity|]. split; [reflexivity|].
  intros H. apply issued_count in H. discriminate H.
Qed.

(** The same back ends, asked by POST: one request each. *)
Example post_not_reissued :
  post down "/nlp/initialize" tt []
  = (Error "Service Unavailable",
     [mkRequest POST "http://localhost:8000/api/nlp/initialize" jsonHeaders
        None (Some tt)]) /\
  snd (post failsOnce "/nlp/initialize" tt []) 
  = [mkRequest POST "http://localhost:8000/api/nlp/initialize" jsonHeaders
       None (Some tt)].
Proof. split; reflexivity. Qed.

(** The messages [handleError] makes. *)
Example handleError_messages :
  handleError (mkHttpError (ClientErrorEvent "offline") "m" 0)
  = "Client Error: offline" /\
  handleError (mkHttpError (ServerBody (Some "Novel not found")) "m" 404)
  = "Novel not found" /\
  handleError (mkHttpError (ServerBody None) "Http failure" 500)
  = "Http failure" /\
  handleError (mkHttpError NoBody "" 502)
  = "Server Error Code: 502" +:+ newline +:+ "Message: ".
Proof. repeat split. Qed.

(** ** GlossaryService: validation and creation *)

Section TermCreation.

Import GlossaryService.

Variable toLowerCase : jsstring -> jsstring.

Variable backend : Backend GlossaryTermCreate.t GlossaryTerm.t.

(** The request that creates a term. *)
Definition createRequest (term : GlossaryTermCreate.t)
  : HttpRequest GlossaryTermCreate.t :=
  mkRequest POST (baseUrl +:+ "/glossary/terms") jsonHeaders None (Some term).

(** C3, amended: [validateTerm] holds a term valid only when its three
    fields are non-empty after trimming and both term fields have at most
    200 code units; the length errors appear exactly above 200, so a
    field of 200 passes and one of 201 fails.  The validator is a function
    of the term and the existing terms alone: it issues no request.  The
    writes of the service do not run it: [createTerm] posts the term it is
    given, once and as it is, whatever the validator says of it, and
    [createTermFromSuggestion] is [createTerm] of the term made of its
    arguments. *)
Theorem validateTerm_fields term existingTerms log :
  (valid (validateTerm toLowerCase term existingTerms) = true ->
   trim (GlossaryTermCreate.original_term term) <> [] /\
   trim (GlossaryTermCreate.preferred_term term) <> [] /\
   trim (GlossaryTermCreate.term_type term) <> [] /\
   jslength (GlossaryTermCreate.original_term term) <= 200 /\
   jslength (GlossaryTermCreate.preferred_term term) <= 200) /\
  (In originalTooLongMsg
     (errors (validateTerm toLowerCase term existingTerms)) <->
   200 < jslength (GlossaryTermCreate.original_term term)) /\
  (In preferredTooLongMsg
     (errors (validateTerm toLowerCase term existingTerms)) <->
   200 < jslength (GlossaryTermCreate.preferred_term term)) /\
  (jslength (GlossaryTermCreate.original_term term) = 201 \/
   jslength (GlossaryTermCreate.preferred_term term) = 201 ->
   valid (validateTerm toLowerCase term existingTerms) = false) /\
  (trim (GlossaryTermCreate.original_term term) <> [] ->
   trim (GlossaryTermCreate.preferred_term term) <> [] ->
   trim (GlossaryTermCreate.term_type term) <> [] ->
   ~ duplicates toLowerCase term existingTerms ->
   jslength (GlossaryTermCreate.original_term term) <= 200 ->
   jslength (GlossaryTermCreate.preferred_term term) <= 200 ->
   valid (validateTerm toLowerCase term existingTerms) = true) /\
  createTerm backend term log
  = (surfaced (backend log (createRequest term)),
     log ++ [createRequest term]) /\
  (forall novelId originalTerm preferredTerm termType,
     createTermFromSuggestion backend novelId originalTerm preferredTerm
       termType log
     = createTerm backend
         (GlossaryTermCreate.mk novelId originalTerm preferredTerm
            (default (js "general") termType) None)
         log).
Proof.
  pose proof (validateTerm_field_checks toLowerCase term existingTerms)
    as (Hvalid & Horiginal & Hpreferred & Hlong & Hok).
  split; [exact Hvalid|]. split; [exact Horiginal|].
  split; [exact Hpreferred|]. split; [exact Hlong|].
  split; [exact Hok|]. split.
  - unfold createTerm, createRequest. apply post_run.
  - reflexivity.
Qed.

End TermCreation.

(** A back end that stores every term it is sent, under the id 9. *)
Definition storing : Backend GlossaryTermCreate.t GlossaryTerm.t :=
  fun _ request =>
    match body request with
    | Some term =>
        inr (GlossaryTerm.mk 9 (GlossaryTermCreate.novel_id term)
               (GlossaryTermCreate.original_term term)
               (GlossaryTermCreate.preferred_term term)
               (GlossaryTermCreate.term_type term)
               (GlossaryTermCreate.context term) 0 true
               (js "2025-01-09") (js "2025-01-09"))
    | None => inl unavailable
    end.

(** A term of spaces only. *)
Definition blank : GlossaryTermCreate.t :=
  GlossaryTermCreate.mk 1 (js "  ") (js " ") (js "") None.

(** C3, the claim as written: the checks are performed before any write.
    The validator rejects the blank term with its three messages, and
    [createTerm] posts that term to the back end all the same, which
    stores it; so does [createTermFromSuggestion] for a blank
    suggestion. *)
Lemma createTerm_posts_blank_term :
  GlossaryService.validateTerm asciiToLowerCase blank []
  = mkValidation false
      [GlossaryService.originalEmptyMsg; GlossaryService.preferredEmptyMsg;
       GlossaryService.typeEmptyMsg] /\
  GlossaryService.createTerm storing blank []
  = (Next (GlossaryTerm.mk 9 1 (js "  ") (js " ") (js "") None 0 true
             (js "2025-01-09") (js "2025-01-09")),
     [createRequest blank]) /\
  GlossaryService.createTermFromSuggestion storing 1 (js "  ") (js " ")
    (Some (js "")) []
  = (Next (GlossaryTerm.mk 9 1 (js "  ") (js " ") (js "") None 0 true
             (js "2025-01-09") (js "2025-01-09")),
     [createRequest blank]).
Proof. vm_compute. repeat split. Qed.

(** ** NlpService.quickRefine *)

Section QuickRefine.

Import NlpService.

Variable backend : Backend RefineTextRequest.t RefinementResult.t.

Lemma truthyNumber_iff (n : option Z) :
  truthyNumber n = true <-> exists z, n = Some z /\ z <> 0.
Proof.
  destruct n as [z|]; simpl.
  - rewrite negb_true_iff, Z.eqb_neq. split.
    + intros H. exists z. split; [reflexivity | exact H].
    + intros (z' & E & H). congruence.
  - split; [discriminate|]. intros (z & E & _). discriminate.
Qed.

(** The request [quickRefine] builds. *)
Definition quickRefineRequest (text : jsstring) (novelId : option Z)
  : RefineTextRequest.t :=
  RefineTextRequest.mk text (truthyNumber novelId) novelId.

Lemma quickRefine_run text novelId log :
  let r := mkRequest POST (baseUrl +:+ "/nlp/refine-text") jsonHeaders None
             (Some (quickRefineRequest text novelId)) in
  quickRefine backend text novelId log
  = (surfaced (backend log r), log ++ [r]).
Proof. unfold quickRefine, refineText. apply post_run. Qed.

(** C8: [quickRefine], and [previewRefinement] which is the same call,
    posts one refinement request; the request carries the text and the
    novel id as given; its [use_glossary] flag is set exactly when a novel
    id other than 0 was given; so a request whose flag is set has its
    [novel_id]. *)
Theorem quickRefine_precondition text novelId log :
  exists request : RefineTextRequest.t,
    quickRefine backend text novelId log
    = (surfaced
         (backend log
            (mkRequest POST (baseUrl +:+ "/nlp/refine-text") jsonHeaders None
               (Some request))),
       log ++ [mkRequest POST (baseUrl +:+ "/nlp/refine-text") jsonHeaders
                 None (Some request)]) /\
    previewRefinement backend text novelId log
    = quickRefine backend text novelId log /\
    RefineTextRequest.text request = text /\
    RefineTextRequest.novel_id request = novelId /\
    (RefineTextRequest.use_glossary request = true ->
     exists n, RefineTextRequest.novel_id request = Some n) /\
    (RefineTextRequest.use_glossary request = true <->
     exists n, novelId = Some n /\ n <> 0).
Proof.
  exists (quickRefineRequest text novelId).
  split; [apply quickRefine_run|].
  split; [reflexivity|].
  split; [reflexivity|].
  split; [reflexivity|].
  split.
  - simpl. intros H. apply truthyNumber_iff in H as (n & -> & _).
    exists n. reflexivity.
  - simpl. apply truthyNumber_iff.
Qed.

End QuickRefine.

(** The three ways to call it: without a novel, with novel 0, with novel
    7. *)
Example quickRefine_requests :
  let sent (novelId : option Z) :=
    List.map body
      (snd (NlpService.quickRefine (fun _ _ => inl unavailable)
              (js "Some text.") novelId [])) in
  sent None = [Some (RefineTextRequest.mk (js "Some text.") false None)] /\
  sent (Some 0)
  = [Some (RefineTextRequest.mk (js "Some text.") false (Some 0))] /\
  sent (Some 7)
  = [Some (RefineTextRequest.mk (js "Some text.") true (Some 7))].
Proof. repeat split. Qed.

(** ** NovelService.getProcessingStats *)

Section ProcessingStats.

Import NovelService.

Lemma filter_length_le {A} (p : A -> bool) (l : list A) :
  (List.length (List.filter p l) <= List.length l)%nat.
Proof.
  induction l as [|x l IH]; simpl; [lia|].
  destruct (p x); simpl; lia.
Qed.










Variable backend : Backend unit Novel.t.

Lemma mapNext_Next {P E A B} (f : A -> B) (source : Observable P E A)
  log v log' :
  source log = (Next v, log') -> mapNext f source log = (Next (f v), log').
Proof. intros H. unfold mapNext. rewrite H. reflexivity. Qed.

Lemma mapNext_Error {P E A B} (f : A -> B) (source : Observable P E A)
  log e log' :
  source log = (Error e, log') -> mapNext f source log = (Error e, log').
Proof. intros H. unfold mapNext. rewrite H. reflexivity. Qed.


(** An error of the back end is passed on as it is. *)
Lemma getProcessingStats_error novelId log e log' :
  getNovelById backend novelId log = (Error e, log') ->
  getProcessingStats backend novelId log = (Error e, log').
Proof. intros H. unfold getProcessingStats. now apply mapNext_Error. Qed.

End ProcessingStats.

(** A novel with three chapters, the second of them processed. *)
Definition chapter (n : Z) (processed : bool) : Chapter.t :=
  Chapter.mk n n (js "Chapter") (js "http://novelhi.com/c") processed 1200.

Definition abyss : Novel.t :=
  Novel.mk 7 (js "Abyss Domination") (js "http://novelhi.com/s/abyss")
    (js "") (js "") (js "ongoing") 3
    [chapter 1 false; chapter 2 true; chapter 3 false].





Example processingStats_run :
  NovelService.processingStats abyss
  = NovelService.mkStats 3 1 ((1 / 3) * 100)%Q ((3600 # 1) / 3)%Q /\
  (Qred (NovelService.completionPercentage
           (NovelService.processingStats abyss)) = 100 # 3)%Q /\
  NovelService.completionPercentage
    (NovelService.processingStats (Novel.mk 8 [] [] [] [] [] 0 []))
  = 0%Q.
Proof. repeat split. Qed.

(** ** GlossaryService.getTermStatistics *)

Section TermStatistics.

Import GlossaryService.

(** The sum of the numbers of a breakdown by type; a string is no
    count. *)
Definition sumCounts (m : gmap jsstring Count) : Z :=
  map_fold
    (fun _ v acc => match v with Num n => n + acc | Str _ => acc end) 0 m.

(** The number of terms of one type. *)
Definition termsOfType (ty : jsstring) (terms : list GlossaryTerm.t) : Z :=
  Z.of_nat
    (List.length
       (List.filter
          (fun t => bool_decide (GlossaryTerm.term_type t = ty)) terms)).

(** The number of terms whose type is a property name that an object
    literal inherits. *)
Definition inheritedTyped (terms : list GlossaryTerm.t) : Z :=
  Z.of_nat
    (List.length
       (List.filter
          (fun t => JsObject.inherited (GlossaryTerm.term_type t)) terms)).

(** What [typeStats] holds under a type after the loop over [terms]:
    nothing for a type without terms and for [__proto__]; for the name of
    an inherited function, the string of that function followed by one
    ['1'] per term; for any other type, the number of its terms. *)
Definition breakdownOf (ty : jsstring) (terms : list GlossaryTerm.t)
  : option Count :=
  let n := termsOfType ty terms in
  if n =? 0 then None
  else if JsObject.isProto ty then None
  else if JsObject.isPrototypeMethod ty then
    Some (Str (JsObject.functionSource ty
               ++ List.repeat 49%N (Z.to_nat n)))
  else Some (Num n).

(** The sum of the frequencies of a list of terms. *)
Definition totalFrequency (terms : list GlossaryTerm.t) : Z :=
  fold_right Z.add 0 (List.map GlossaryTerm.frequency terms).

Lemma sumCounts_insert_fresh (m : gmap jsstring Count) k v :
  m !! k = None ->
  sumCounts (<[k:=v]> m)
  = match v with Num n => n | Str _ => 0 end + sumCounts m.
Proof.
  intros H. unfold sumCounts.
  rewrite map_fold_insert_L; [destruct v; lia | | exact H].
  intros j1 j2 z1 z2 y _ _ _. destruct z1, z2; lia.
Qed.

Lemma sumCounts_delete (m : gmap jsstring Count) k v :
  m !! k = Some v ->
  sumCounts m
  = match v with Num n => n | Str _ => 0 end
    + sumCounts (base.delete k m).
Proof.
  intros H. unfold sumCounts.
  rewrite (map_fold_delete_L _ _ k v m); [destruct v; lia | | exact H].
  intros j1 j2 z1 z2 y _ _ _. destruct z1, z2; lia.
Qed.

Lemma sumCounts_insert (m : gmap jsstring Count) k v :
  sumCounts (<[k:=v]> m)
  = match v with Num n => n | Str _ => 0 end
    - match m !! k with Some (Num n) => n | _ => 0 end
    + sumCounts m.
Proof.
  destruct (m !! k) as [w|] eqn:E.
  - rewrite <- insert_delete_eq.
    rewrite sumCounts_insert_fresh by apply lookup_delete_eq.
    rewrite (sumCounts_delete m k w E). destruct v, w; lia.
  - rewrite sumCounts_insert_fresh by exact E. destruct v; lia.
Qed.

Lemma isPrototypeMethod_not_proto key :
  JsObject.isPrototypeMethod key = true -> JsObject.isProto key = false.
Proof.
  unfold JsObject.isPrototypeMethod, JsObject.isProto, jsstring_eqb.
  rewrite existsb_exists. intros (name & Hin & E).
  apply bool_decide_eq_true in E. subst name.
  apply bool_decide_eq_false_2. intros ->.
  vm_compute in Hin. intuition discriminate.
Qed.

Lemma termsOfType_snoc ty terms t :
  termsOfType ty (terms ++ [t])
  = termsOfType ty terms
    + (if bool_decide (GlossaryTerm.term_type t = ty) then 1 else 0).
Proof.
  unfold termsOfType. rewrite List.filter_app, length_app. simpl.
  destruct (bool_decide (GlossaryTerm.term_type t = ty)); simpl; lia.
Qed.

Lemma termsOfType_nonneg ty terms : 0 <= termsOfType ty terms.
Proof. unfold termsOfType. lia. Qed.

Lemma inheritedTyped_snoc terms t :
  inheritedTyped (terms ++ [t])
  = inheritedTyped terms
    + (if JsObject.inherited (GlossaryTerm.term_type t) then 1 else 0).
Proof.
  unfold inheritedTyped. rewrite List.filter_app, length_app. simpl.
  destruct (JsObject.inherited (GlossaryTerm.term_type t)); simpl; lia.
Qed.

Lemma fold_left_snoc {A B} (f : A -> B -> A) l x a :
  fold_left f (l ++ [x]) a = f (fold_left f l a) x.
Proof. rewrite fold_left_app. reflexivity. Qed.

(** One more term of type [ty], met by [countType] after [n] of them. *)
Lemma countType_step (m : gmap jsstring Count) t terms :
  (forall ty, m !! ty = breakdownOf ty terms) ->
  (forall ty, countType m t !! ty = breakdownOf ty (terms ++ [t])) /\
  sumCounts (countType m t)
  = sumCounts m
    + (if JsObject.inherited (GlossaryTerm.term_type t) then 0 else 1).
Proof.
  intros Hm.
  set (key := GlossaryTerm.term_type t).
  pose proof (termsOfType_nonneg key terms) as Hn.
  pose proof (Hm key) as Hkey.
  assert (Hother : forall ty, key <> ty ->
            breakdownOf ty (terms ++ [t]) = breakdownOf ty terms).
  { intros ty Hne. unfold breakdownOf. rewrite termsOfType_snoc.
    fold key. rewrite bool_decide_eq_false_2 by exact Hne.
    rewrite Z.add_0_r. reflexivity. }
  assert (Hsame : termsOfType key (terms ++ [t])
                  = termsOfType key terms + 1).
  { rewrite termsOfType_snoc. fold key.
    rewrite bool_decide_eq_true_2 by reflexivity. reflexivity. }
  assert (Hrest : forall ty, key <> ty ->
            m !! ty = breakdownOf ty (terms ++ [t])).
  { intros ty Hne. rewrite Hother by exact Hne. apply Hm. }
  unfold breakdownOf in Hkey.
  unfold countType, JsObject.get, JsObject.set, JsObject.inherited.
  fold key.
  destruct (JsObject.isProto key) eqn:Eproto.
  { (* [__proto__]: nothing is stored *)
    assert (Emethod : JsObject.isPrototypeMethod key = false).
    { destruct (JsObject.isPrototypeMethod key) eqn:E; [|reflexivity].
      apply isPrototypeMethod_not_proto in E. congruence. }
    assert (Enone : m !! key = None)
      by (rewrite Hkey; destruct (termsOfType key terms =? 0); reflexivity).
    rewrite Enone, Emethod. simpl. split; [|lia].
    intros ty. destruct (decide (key = ty)) as [<-|Hne];
      [|apply Hrest; exact Hne].
    rewrite Enone. unfold breakdownOf. rewrite Eproto.
    destruct (termsOfType key (terms ++ [t]) =? 0); reflexivity. }
  destruct (JsObject.isPrototypeMethod key) eqn:Emethod.
  { (* the name of an inherited function: a string is stored *)
    destruct (termsOfType key terms =? 0) eqn:E0; rewrite Hkey.
    - apply Z.eqb_eq in E0. simpl. split.
      + intros ty. destruct (decide (key = ty)) as [<-|Hne].
        * rewrite lookup_insert_eq. unfold breakdownOf.
          rewrite Hsame, E0, Eproto, Emethod. reflexivity.
        * rewrite lookup_insert_ne by exact Hne. apply Hrest; exact Hne.
      + rewrite sumCounts_insert, Hkey. lia.
    - apply Z.eqb_neq in E0.
      assert (Etruthy : truthy (JsObject.functionSource key
                         ++ List.repeat 49%N
                              (Z.to_nat (termsOfType key terms))) = true)
        by reflexivity.
      cbv beta iota. rewrite Etruthy. split.
      + intros ty. destruct (decide (key = ty)) as [<-|Hne].
        * rewrite lookup_insert_eq. unfold breakdownOf.
          rewrite Hsame, Eproto, Emethod.
          replace (termsOfType key terms + 1 =? 0) with false
            by (symmetry; apply Z.eqb_neq; lia).
          rewrite Z2Nat.inj_add by lia.
          rewrite repeat_app, app_assoc. reflexivity.
        * rewrite lookup_insert_ne by exact Hne. apply Hrest; exact Hne.
      + rewrite sumCounts_insert, Hkey. simpl. lia. }
  (* a type of its own: a number is stored *)
  destruct (termsOfType key terms =? 0) eqn:E0; rewrite Hkey.
  - apply Z.eqb_eq in E0. simpl. split.
    + intros ty. destruct (decide (key = ty)) as [<-|Hne].
      * rewrite lookup_insert_eq. unfold breakdownOf.
        rewrite Hsame, E0, Eproto, Emethod. reflexivity.
      * rewrite lookup_insert_ne by exact Hne. apply Hrest; exact Hne.
    + rewrite sumCounts_insert, Hkey. lia.
  - cbv beta iota. rewrite E0. apply Z.eqb_neq in E0. split.
    + intros ty. destruct (decide (key = ty)) as [<-|Hne].
      * rewrite lookup_insert_eq. unfold breakdownOf.
        rewrite Hsame, Eproto, Emethod.
        replace (termsOfType key terms + 1 =? 0) with false
          by (symmetry; apply Z.eqb_neq; lia).
        reflexivity.
      * rewrite lookup_insert_ne by exact Hne. apply Hrest; exact Hne.
    + rewrite sumCounts_insert, Hkey. simpl. lia.
Qed.

(** The loop of [getTermStatistics] over the terms, from [{}]. *)
Lemma countType_fold terms :
  (forall ty, fold_left countType terms ∅ !! ty = breakdownOf ty terms) /\
  sumCounts (fold_left countType terms ∅)
  = Z.of_nat (List.length terms) - inheritedTyped terms.
Proof.
  induction terms as [|t terms [IHl IHs]] using rev_ind.
  - split; [intros ty; simpl; rewrite lookup_empty; reflexivity|].
    unfold sumCounts. simpl. rewrite map_fold_empty. reflexivity.
  - rewrite fold_left_snoc.
    destruct (countType_step (fold_left countType terms ∅) t terms IHl)
      as [Hl Hs].
    split; [exact Hl|].
    rewrite Hs, IHs, inheritedTyped_snoc, length_app. simpl.
    destruct (JsObject.inherited (GlossaryTerm.term_type t)); lia.
Qed.


Lemma filter_partition_length {A} (p : A -> bool) (l : list A) :
  (List.length (List.filter p l)
   + List.length (List.filter (fun x => negb (p x)) l)
   = List.length l)%nat.
Proof.
  induction l as [|x l IH]; simpl; [reflexivity|].
  destruct (p x); simpl; lia.
Qed.

Lemma fold_left_sum terms : forall a,
  fold_left (fun sum term => sum + GlossaryTerm.frequency term) terms a
  = a + totalFrequency terms.
Proof.
  unfold totalFrequency.
  induction terms as [|t terms IH]; intros a; simpl.
  - lia.
  - rewrite IH. lia.
Qed.

(** The running maximum of [reduce]: an element of the array, and no
    element has a greater frequency. *)
Lemma fold_left_max terms : forall x,
  let m :=
    fold_left
      (fun max term =>
         if GlossaryTerm.frequency term >? GlossaryTerm.frequency max
         then term else max) terms x in
  In m (x :: terms) /\
  forall t, In t (x :: terms) ->
            GlossaryTerm.frequency t <= GlossaryTerm.frequency m.
Proof.
  induction terms as [|y terms IH]; intros x; simpl.
  - split; [left; reflexivity|]. intros t [<-|[]]. lia.
  - destruct (GlossaryTerm.frequency y >? GlossaryTerm.frequency x) eqn:E.
    + apply Z.gtb_lt in E.
      destruct (IH y) as [Hin Hmax]. split.
      * destruct Hin as [<-|Hin]; [right; left; reflexivity | right; right; exact Hin].
      * intros t [<-|[<-|Ht]].
        -- specialize (Hmax y (or_introl eq_refl)). lia.
        -- apply Hmax. left; reflexivity.
        -- apply Hmax. right; exact Ht.
    + assert (GlossaryTerm.frequency y <= GlossaryTerm.frequency x).
      { destruct (Z.gtb_spec (GlossaryTerm.frequency y)
                    (GlossaryTerm.frequency x)); [discriminate | lia]. }
      destruct (IH x) as [Hin Hmax]. split.
      * destruct Hin as [<-|Hin]; [left; reflexivity | right; right; exact Hin].
      * intros t [<-|[<-|Ht]].
        -- apply Hmax. left; reflexivity.
        -- specialize (Hmax x (or_introl eq_refl)). lia.
        -- apply Hmax. right; exact Ht.
Qed.

(** What the statistics of a list of terms say. *)
Lemma termStatistics_partition (terms : list GlossaryTerm.t) :
  let stats := termStatistics terms in
  totalTerms stats = Z.of_nat (List.length terms) /\
  activeTerms stats + inactiveTerms stats = totalTerms stats /\
  (forall ty, typeBreakdown stats !! ty = breakdownOf ty terms) /\
  sumCounts (typeBreakdown stats)
  = totalTerms stats - inheritedTyped terms /\
  (terms <> [] ->
   (averageFrequency stats
    == inject_Z (totalFrequency terms)
       / inject_Z (Z.of_nat (List.length terms)))%Q) /\
  (terms = [] ->
   averageFrequency stats = 0%Q /\ mostFrequentTerm stats = None) /\
  (terms <> [] ->
   exists m,
     mostFrequentTerm stats = Some m /\ In m terms /\
     forall t, In t terms ->
               GlossaryTerm.frequency t <= GlossaryTerm.frequency m).
Proof.
  intros stats. unfold stats, termStatistics; simpl.
  split; [reflexivity|].
  split.
  { pose proof (filter_partition_length GlossaryTerm.is_active terms). lia. }
  split; [apply countType_fold|].
  split; [apply countType_fold|].
  destruct terms as [|x terms].
  - split; [congruence|]. split; [intros _; split; reflexivity | congruence].
  - assert (E : (Z.of_nat (List.length (x :: terms)) >? 0) = true).
    { apply Z.gtb_lt. simpl List.length. lia. }
    rewrite E. split.
    + intros _. rewrite fold_left_sum. reflexivity.
    + split; [discriminate|]. intros _.
      simpl JsArray.reduce1.
      eexists. split; [reflexivity|]. apply fold_left_max.
Qed.

End TermStatistics.

(** The glossary of the examples: three terms of novel 1, one of them
    inactive, and a term of novel 2. *)
Definition kaldor : GlossaryTerm.t :=
  GlossaryTerm.mk 2 1 (js "Kaldor") (js "Kaldor") (js "place") None 5 false
    (js "2025-01-02") (js "2025-01-02").

Definition myr : GlossaryTerm.t :=
  GlossaryTerm.mk 3 1 (js "Myr") (js "Myr") (js "character") None 5 true
    (js "2025-01-03") (js "2025-01-03").

Definition sola : GlossaryTerm.t :=
  GlossaryTerm.mk 4 2 (js "Sola") (js "Sola") (js "character") None 9 true
    (js "2025-01-04") (js "2025-01-04").

Definition glossary : list GlossaryTerm.t := [elyra; myr; sola; kaldor].

(** Two terms whose type is a property name of [Object.prototype]. *)
Definition mason : GlossaryTerm.t :=
  GlossaryTerm.mk 5 1 (js "Zao Wu Zhe") (js "World Maker")
    (js "constructor") None 4 true (js "2025-01-05") (js "2025-01-05").

Definition lineage : GlossaryTerm.t :=
  GlossaryTerm.mk 6 1 (js "Xue Mai") (js "Bloodline") (js "__proto__")
    None 3 true (js "2025-01-06") (js "2025-01-06").

Definition termsRequest (novelId : string) (activeOnly : bool)
  : HttpRequest GlossaryService.TermsParams :=
  mkRequest GET ("http://localhost:8000/api/glossary/terms/" +:+ novelId)
    jsonHeaders (Some (GlossaryService.mkParams activeOnly None)) None.

(** C9, at a term of type [constructor]: the claim has the counts of
    [typeBreakdown] add up to [totalTerms].  [typeStats] is an object
    literal, so that [typeStats['constructor']] reads the inherited
    function [Object], which is truthy, and [+ 1] makes a string of it:
    for the terms [myr] and [mason] the breakdown holds the count 1 for
    [character] and a string for [constructor], and its counts add up to
    1 of 2 terms.  A term of type [__proto__] leaves no trace at all. *)
Theorem getTermStatistics_inherited_type :
  (exists stats,
     GlossaryService.getTermStatistics (fun _ _ => inr [myr; mason]) 1 []
     = (Next stats, [termsRequest "1" false]) /\
     GlossaryService.totalTerms stats = 2 /\
     GlossaryService.typeBreakdown stats !! js "character"
     = Some (GlossaryService.Num 1) /\
     GlossaryService.typeBreakdown stats !! js "constructor"
     = Some (GlossaryService.Str
               (js "function Object() { [native code] }1")) /\
     sumCounts (GlossaryService.typeBreakdown stats) = 1) /\
  (exists stats,
     GlossaryService.getTermStatistics (fun _ _ => inr [lineage]) 1 []
     = (Next stats, [termsRequest "1" false]) /\
     GlossaryService.totalTerms stats = 1 /\
     (forall ty, GlossaryService.typeBreakdown stats !! ty = None) /\
     sumCounts (GlossaryService.typeBreakdown stats) = 0).
Proof.
  split.
  - exists (GlossaryService.termStatistics [myr; mason]).
    split; [vm_compute; reflexivity|].
    split; [reflexivity|].
    split; [vm_compute; reflexivity|].
    split; [vm_compute; reflexivity|].
    vm_compute. reflexivity.
  - exists (GlossaryService.termStatistics [lineage]).
    split; [vm_compute; reflexivity|].
    split; [reflexivity|].
    split; [|vm_compute; reflexivity].
    intros ty.
    destruct (termStatistics_partition [lineage]) as (_ & _ & Hl & _).
    rewrite Hl. unfold breakdownOf, termsOfType. simpl.
    destruct (decide (js "__proto__" = ty)) as [<-|Hne].
    + reflexivity.
    + rewrite bool_decide_eq_false_2 by exact Hne. reflexivity.
Qed.

Example termStatistics_run :
  let stats := GlossaryService.termStatistics [kaldor; myr; elyra] in
  GlossaryService.totalTerms stats = 3 /\
  GlossaryService.activeTerms stats = 2 /\
  GlossaryService.inactiveTerms stats = 1 /\
  GlossaryService.typeBreakdown stats !! js "character"
  = Some (GlossaryService.Num 2) /\
  GlossaryService.typeBreakdown stats !! js "place"
  = Some (GlossaryService.Num 1) /\
  GlossaryService.typeBreakdown stats !! js "item" = None /\
  Qred (GlossaryService.averageFrequency stats) = (13 # 3)%Q /\
  GlossaryService.mostFrequentTerm stats = Some kaldor /\
  GlossaryService.mostFrequentTerm (GlossaryService.termStatistics [])
  = None.
Proof. vm_compute. repeat split. Qed.

(** ** Arrays: sort and slice *)

Section Sorting.

Context {A : Type}.
Variable cmp : A -> A -> Z.

(** [x] may stand before [y]. *)
Definition notAfter (x y : A) : Prop := cmp x y <= 0.

Hypothesis cmp_total : forall x y, notAfter x y \/ notAfter y x.
Hypothesis cmp_trans :
  forall x y z, notAfter x y -> notAfter y z -> notAfter x z.

Lemma insertBy_In x l z :
  In z (JsArray.insertBy cmp x l) <-> z = x \/ In z l.
Proof.
  induction l as [|y l IH]; simpl.
  - intuition congruence.
  - destruct (cmp x y <=? 0); simpl; [|rewrite IH]; intuition congruence.
Qed.

Lemma insertBy_sorted x l :
  StronglySorted notAfter l ->
  StronglySorted notAfter (JsArray.insertBy cmp x l).
Proof.
  induction 1 as [|y l Hs IH Hall]; simpl.
  - constructor; [constructor | constructor].
  - destruct (cmp x y <=? 0) eqn:E.
    + apply Z.leb_le in E. constructor.
      * constructor; assumption.
      * constructor; [exact E|].
        rewrite List.Forall_forall in Hall |- *.
        intros z Hz. apply (cmp_trans x y z); [exact E | auto].
    + apply Z.leb_gt in E. constructor; [exact IH|].
      rewrite List.Forall_forall in Hall |- *.
      intros z Hz. apply insertBy_In in Hz as [->|Hz]; [|auto].
      destruct (cmp_total x y) as [H|H]; [unfold notAfter in H; lia | exact H].
Qed.

Lemma sort_sorted l : StronglySorted notAfter (JsArray.sort cmp l).
Proof.
  induction l as [|x l IH]; simpl.
  - constructor.
  - apply insertBy_sorted. exact IH.
Qed.

End Sorting.

Section SortingFacts.

Context {A : Type}.
Variable cmp : A -> A -> Z.

Lemma sort_In l z : In z (JsArray.sort cmp l) <-> In z l.
Proof.
  induction l as [|x l IH]; simpl; [tauto|].
  rewrite insertBy_In, IH. intuition congruence.
Qed.

Lemma sort_length l : List.length (JsArray.sort cmp l) = List.length l.
Proof.
  assert (Hins : forall x l',
             List.length (JsArray.insertBy cmp x l') = S (List.length l')).
  { intros x l'. induction l' as [|y l' IH]; simpl; [reflexivity|].
    destruct (cmp x y <=? 0); simpl; [reflexivity | now rewrite IH]. }
  induction l as [|x l IH]; simpl; [reflexivity|].
  rewrite Hins, IH. reflexivity.
Qed.

(** The sort leaves a sorted array as it is: elements that compare equal
    keep the order they came in. *)
Lemma sort_sorted_id l :
  StronglySorted (notAfter cmp) l -> JsArray.sort cmp l = l.
Proof.
  induction 1 as [|x l Hs IH Hall]; simpl; [reflexivity|].
  rewrite IH. destruct l as [|y l]; simpl; [reflexivity|].
  apply Forall_inv in Hall. unfold notAfter in Hall.
  apply Z.leb_le in Hall. rewrite Hall. reflexivity.
Qed.

(** Stability: among the elements of one class of mutually tied
    elements, the sort keeps the order of the input. *)
Lemma sort_stable (p : A -> bool) l :
  (forall x y, p x = true -> p y = true -> cmp x y <= 0) ->
  List.filter p (JsArray.sort cmp l) = List.filter p l.
Proof.
  intros Htied.
  assert (Hins : forall x l',
             List.filter p (JsArray.insertBy cmp x l')
             = List.filter p (x :: l')).
  { intros x l'. induction l' as [|y l' IH]; [reflexivity|].
    simpl JsArray.insertBy. destruct (cmp x y <=? 0) eqn:E; [reflexivity|].
    apply Z.leb_gt in E. simpl. simpl in IH. rewrite IH.
    destruct (p x) eqn:Hx, (p y) eqn:Hy; try reflexivity.
    specialize (Htied x y Hx Hy). lia. }
  induction l as [|x l IH]; [reflexivity|].
  simpl JsArray.sort. rewrite Hins. simpl. rewrite IH. reflexivity.
Qed.

Lemma StronglySorted_firstn (R : A -> A -> Prop) n l :
  StronglySorted R l -> StronglySorted R (firstn n l).
Proof.
  intros H. revert n. induction H as [|x l Hs IH Hall]; intros n.
  - rewrite firstn_nil. constructor.
  - destruct n as [|n]; simpl; [constructor|].
    constructor; [apply IH|].
    rewrite List.Forall_forall in Hall |- *.
    intros z Hz. apply Hall.
    rewrite <- (firstn_skipn n l). apply in_or_app. left; exact Hz.
Qed.

Lemma StronglySorted_weaken (R S : A -> A -> Prop) l :
  (forall x y, R x y -> S x y) ->
  StronglySorted R l -> StronglySorted S l.
Proof.
  intros HRS. induction 1 as [|x l Hs IH Hall]; constructor; [exact IH|].
  rewrite List.Forall_forall in Hall |- *. auto.
Qed.

(** [a.slice(0, n)] for [n] that is not negative: the first [n] elements,
    all of them when there are fewer. *)
Lemma slice_prefix (n : Z) (l : list A) :
  0 <= n -> JsArray.slice 0 n l = firstn (Z.to_nat n) l.
Proof.
  intros Hn. unfold JsArray.slice, JsArray.relativeIndex. cbv zeta.
  assert (En : (n <? 0) = false) by (apply Z.ltb_ge; exact Hn).
  rewrite En. change (0 <? 0) with false. cbv iota.
  replace (Z.min 0 (Z.of_nat (List.length l))) with 0 by lia.
  change (skipn (Z.to_nat 0) l) with l.
  destruct (Z_le_dec n (Z.of_nat (List.length l))) as [Hle|Hgt].
  - f_equal. lia.
  - rewrite (firstn_all2 (n := Z.to_nat n)) by lia.
    apply firstn_all2. lia.
Qed.

(** [a.slice(0, n)] for a negative [n]: all but the last [-n] elements. *)
Lemma slice_negative (n : Z) (l : list A) :
  n < 0 ->
  JsArray.slice 0 n l
  = firstn (Z.to_nat (Z.of_nat (List.length l) + n)) l.
Proof.
  intros Hn. unfold JsArray.slice, JsArray.relativeIndex. cbv zeta.
  assert (En : (n <? 0) = true) by (apply Z.ltb_lt; exact Hn).
  rewrite En. change (0 <? 0) with false. cbv iota.
  replace (Z.min 0 (Z.of_nat (List.length l))) with 0 by lia.
  change (skipn (Z.to_nat 0) l) with l.
  f_equal. lia.
Qed.

Lemma slice_prefix_length (n : Z) (l : list A) :
  0 <= n -> Z.of_nat (List.length (JsArray.slice 0 n l)) <= n.
Proof.
  intros Hn. rewrite slice_prefix by exact Hn.
  pose proof (firstn_le_length (Z.to_nat n) l). lia.
Qed.

End SortingFacts.

(** ** GlossaryService.getFrequentTerms over the store's get *)

Section FrequentTerms.

Import GlossaryService.

(** Descending frequency. *)
Definition byFrequency (a b : GlossaryTerm.t) : Prop :=
  GlossaryTerm.frequency b <= GlossaryTerm.frequency a.

(** Descending frequency, ties between equal frequencies broken by
    ascending term id. *)
Definition frequencyThenId (a b : GlossaryTerm.t) : Prop :=
  GlossaryTerm.frequency b < GlossaryTerm.frequency a \/
  (GlossaryTerm.frequency a = GlossaryTerm.frequency b /\
   GlossaryTerm.id a <= GlossaryTerm.id b).

Lemma byFrequencyThenId_spec a b :
  notAfter GlossaryStore.byFrequencyThenId a b <-> frequencyThenId a b.
Proof.
  unfold notAfter, GlossaryStore.byFrequencyThenId, frequencyThenId.
  destruct (Z.eqb_spec
              (GlossaryTerm.frequency b - GlossaryTerm.frequency a) 0); lia.
Qed.

Lemma frequencyThenId_total a b :
  frequencyThenId a b \/ frequencyThenId b a.
Proof. unfold frequencyThenId. lia. Qed.

Lemma frequencyThenId_trans a b c :
  frequencyThenId a b -> frequencyThenId b c -> frequencyThenId a c.
Proof. unfold frequencyThenId. lia. Qed.

Lemma frequencyThenId_byFrequency a b :
  frequencyThenId a b -> byFrequency a b.
Proof. unfold frequencyThenId, byFrequency. lia. Qed.

(** The store's answer is in the order the specification gives it. *)
Lemma get_sorted store novel_id term_type active_only :
  StronglySorted frequencyThenId
    (GlossaryStore.get store novel_id term_type active_only).
Proof.
  unfold GlossaryStore.get.
  apply (StronglySorted_weaken (notAfter GlossaryStore.byFrequencyThenId)).
  - intros x y. apply byFrequencyThenId_spec.
  - apply sort_sorted.
    + intros x y. rewrite !byFrequencyThenId_spec.
      apply frequencyThenId_total.
    + intros x y z. rewrite !byFrequencyThenId_spec.
      apply frequencyThenId_trans.
Qed.

Lemma get_In store novel_id term_type active_only t :
  In t (GlossaryStore.get store novel_id term_type active_only) <->
  In t store /\
  GlossaryStore.selected novel_id term_type active_only t = true.
Proof. unfold GlossaryStore.get. rewrite sort_In. apply filter_In. Qed.

(** Whatever the order of the terms delivered, the frequent terms are by
    descending frequency. *)
Lemma frequentTerms_byFrequency limit terms :
  StronglySorted byFrequency (frequentTerms limit terms).
Proof.
  unfold frequentTerms.
  set (sorted := JsArray.sort _ terms).
  assert (Hs : StronglySorted byFrequency sorted).
  { apply (StronglySorted_weaken
             (notAfter (fun a b =>
                GlossaryTerm.frequency b - GlossaryTerm.frequency a))).
    - unfold notAfter, byFrequency. intros; lia.
    - apply sort_sorted; unfold notAfter; intros; lia. }
  destruct (Z_lt_dec limit 0) as [Hneg|Hpos].
  - rewrite slice_negative by exact Hneg. now apply StronglySorted_firstn.
  - rewrite slice_prefix by lia. now apply StronglySorted_firstn.
Qed.

(** Terms of one frequency keep the order in which they were delivered:
    the comparator of [getFrequentTerms] does not look at the id. *)
Lemma frequentTerms_ties_as_delivered frequency terms :
  List.filter (fun t => GlossaryTerm.frequency t =? frequency)
    (frequentTerms (Z.of_nat (List.length terms)) terms)
  = List.filter (fun t => GlossaryTerm.frequency t =? frequency) terms.
Proof.
  unfold frequentTerms. rewrite slice_prefix by lia.
  rewrite Nat2Z.id, <- (sort_length
    (fun a b => GlossaryTerm.frequency b - GlossaryTerm.frequency a) terms).
  rewrite firstn_all. apply sort_stable.
  intros x y Hx Hy. apply Z.eqb_eq in Hx, Hy. lia.
Qed.

(** On the store's answer the sort of [getFrequentTerms] changes nothing:
    what is left is the cut: to the first [limit] terms, or, for a
    negative limit, to all but the last [- limit]. *)
Lemma frequentTerms_get limit store novel_id term_type active_only :
  let delivered := GlossaryStore.get store novel_id term_type active_only in
  frequentTerms limit delivered
  = firstn
      (Z.to_nat
         (if limit <? 0 then Z.of_nat (List.length delivered) + limit
          else limit))
      delivered.
Proof.
  intros delivered. unfold frequentTerms.
  rewrite sort_sorted_id.
  - destruct (Z.ltb_spec limit 0) as [Hneg|Hpos].
    + apply slice_negative; exact Hneg.
    + apply slice_prefix; exact Hpos.
  - apply (StronglySorted_weaken frequencyThenId);
      [|apply get_sorted].
    intros x y H. apply frequencyThenId_byFrequency in H.
    unfold notAfter, byFrequency in *. lia.
Qed.

Variable backend : Backend TermsParams (list GlossaryTerm.t).

(** C6, amended: when the back end answers [getTerms] with the store's
    [get], the frequent terms of a novel are, for every limit, by
    descending frequency with ties between equal frequencies broken by
    term id: they are the first terms of the store's answer, [limit] of
    them (or all, if there are fewer) when the limit is not negative (the
    default is 20) and all but the last [- limit] when it is; so they are
    at most [limit] when the limit is not negative; they are among the
    active terms the store holds for the novel. *)
Theorem getFrequentTerms_order store novelId limit log log' :
  getTerms backend novelId None None log
  = (Next (GlossaryStore.get store novelId None true), log') ->
  let delivered := GlossaryStore.get store novelId None true in
  exists terms,
    getFrequentTerms backend novelId limit log = (Next terms, log') /\
    StronglySorted frequencyThenId terms /\
    (0 <= default 20 limit ->
     terms = firstn (Z.to_nat (default 20 limit)) delivered /\
     Z.of_nat (List.length terms) <= default 20 limit) /\
    (default 20 limit < 0 ->
     terms
     = firstn
         (Z.to_nat (Z.of_nat (List.length delivered) + default 20 limit))
         delivered) /\
    (forall t, In t terms ->
       In t store /\ GlossaryTerm.novel_id t = novelId /\
       GlossaryTerm.is_active t = true).
Proof.
  intros Hget delivered.
  pose proof (frequentTerms_get (default 20 limit) store novelId None true)
    as Hcut.
  cbv zeta in Hcut. fold delivered in Hcut.
  exists (frequentTerms (default 20 limit) delivered).
  split.
  { unfold getFrequentTerms. apply mapNext_Next. exact Hget. }
  rewrite Hcut. clear Hcut.
  set (cut := Z.to_nat
                (if default 20 limit <? 0
                 then Z.of_nat (List.length delivered) + default 20 limit
                 else default 20 limit)).
  split; [apply StronglySorted_firstn, get_sorted|].
  split.
  { intros Hl. unfold cut.
    destruct (Z.ltb_spec (default 20 limit) 0) as [Hneg|_]; [lia|].
    split; [reflexivity|].
    pose proof (firstn_le_length (Z.to_nat (default 20 limit)) delivered).
    lia. }
  split.
  { intros Hl. unfold cut.
    destruct (Z.ltb_spec (default 20 limit) 0) as [_|Hpos]; [|lia].
    reflexivity. }
  intros t Ht.
  assert (Hin : In t delivered).
  { rewrite <- (firstn_skipn cut). apply in_or_app. left; exact Ht. }
  apply get_In in Hin as [Hin Hsel]. split; [exact Hin|].
  unfold GlossaryStore.selected in Hsel.
  apply andb_true_iff in Hsel as [Hsel Hact].
  apply andb_true_iff in Hsel as [Hnov _].
  apply Z.eqb_eq in Hnov. split; [exact Hnov | exact Hact].
Qed.

End FrequentTerms.

(** The store's back end answers [getTerms] of its novel with [get]. *)
Lemma getTerms_serve store novelId activeOnly log :
  GlossaryService.getTerms (GlossaryStore.serve store novelId) novelId None
    activeOnly log
  = (Next (GlossaryStore.get store novelId None (default true activeOnly)),
     log ++ [termsRequest (pretty novelId) (default true activeOnly)]).
Proof.
  unfold GlossaryService.getTerms. apply get_first_answer.
  unfold GlossaryStore.serve. simpl.
  rewrite String.eqb_refl. reflexivity.
Qed.

(** A store in which two terms of novel 1 are tied at frequency 5, the
    one with the greater id entered first, and a third is tied with
    neither. *)
Definition vessa : GlossaryTerm.t :=
  GlossaryTerm.mk 7 1 (js "Vessa") (js "Vessa") (js "place") None 5 true
    (js "2025-01-07") (js "2025-01-07").

Definition ranking : list GlossaryTerm.t := [vessa; elyra; myr; sola; kaldor].

Lemma getFrequentTerms_order_witness :
  GlossaryService.getTerms (GlossaryStore.serve ranking 1) 1 None None []
  = (Next (GlossaryStore.get ranking 1 None true),
     [termsRequest "1" true]) /\
  GlossaryStore.get ranking 1 None true = [myr; vessa; elyra] /\
  GlossaryService.getFrequentTerms (GlossaryStore.serve ranking 1) 1
    (Some 2) []
  = (Next [myr; vessa], [termsRequest "1" true]) /\
  exists terms,
    GlossaryService.getFrequentTerms (GlossaryStore.serve ranking 1) 1
      (Some 2) []
    = (Next terms, [termsRequest "1" true]) /\
    StronglySorted frequencyThenId terms /\
    (0 <= default 20 (Some 2) ->
     terms
     = firstn (Z.to_nat (default 20 (Some 2)))
         (GlossaryStore.get ranking 1 None true) /\
     Z.of_nat (List.length terms) <= default 20 (Some 2)) /\
    (default 20 (Some 2) < 0 ->
     terms
     = firstn
         (Z.to_nat
            (Z.of_nat (List.length (GlossaryStore.get ranking 1 None true))
             + default 20 (Some 2)))
         (GlossaryStore.get ranking 1 None true)) /\
    (forall t, In t terms ->
       In t ranking /\ GlossaryTerm.novel_id t = 1 /\
       GlossaryTerm.is_active t = true).
Proof.
  split; [vm_compute; reflexivity|].
  split; [vm_compute; reflexivity|].
  split; [vm_compute; reflexivity|].
  apply (getFrequentTerms_order (GlossaryStore.serve ranking 1) ranking 1
           (Some 2) [] [termsRequest "1" true]).
  vm_compute. reflexivity.
Defined.

(** C6, the claim as written, for every limit: with the limit -1 the
    slice drops the last term only, and one term is more than -1. *)
Lemma getFrequentTerms_negative_limit :
  GlossaryService.getTerms (GlossaryStore.serve glossary 1) 1 None None []
  = (Next [myr; elyra], [termsRequest "1" true]) /\
  GlossaryService.getFrequentTerms (GlossaryStore.serve glossary 1) 1
    (Some (-1)) []
  = (Next [myr], [termsRequest "1" true]) /\
  ~ Z.of_nat (List.length [myr]) <= -1.
Proof.
  split; [vm_compute; reflexivity|].
  split; [vm_compute; reflexivity|].
  simpl. lia.
Qed.

Example getFrequentTerms_run :
  GlossaryService.frequentTerms 20 [elyra; myr; sola; kaldor]
  = [sola; myr; kaldor; elyra] /\
  GlossaryService.frequentTerms 2 [elyra; myr; sola; kaldor] = [sola; myr] /\
  GlossaryService.frequentTerms 0 [elyra; myr; sola; kaldor] = [] /\
  GlossaryService.frequentTerms (-1) [elyra; myr; sola; kaldor]
  = [sola; myr; kaldor] /\
  GlossaryStore.get glossary 1 None false = [kaldor; myr; elyra] /\
  fst (GlossaryService.getFrequentTerms (GlossaryStore.serve glossary 1) 1
         None [])
  = Next [myr; elyra] /\
  fst (GlossaryService.getFrequentTerms (GlossaryStore.serve glossary 1) 2
         None [])
  = Error "Not Found".
Proof. vm_compute. repeat split. Qed.

(** ** The shape of a RefinementResult *)

Section Shapes.

Import Json.



Lemma hasType_TArray elem v :
  hasType (TArray elem) v = true ->
  exists elems, v = JArr elems /\ Forall (fun x => hasType elem x = true) elems.
Proof.
  destruct v; simpl; try discriminate.
  intros H. eexists. split; [reflexivity|].
  rewrite forallb_forall in H. apply List.Forall_forall. exact H.
Qed.












Variable backend : Backend RefineTextRequest.t RefinementResult.t.



End Shapes.

(** A result as the back end sends it, and the same result under the
    property names of the specification. *)
Definition glossaryChange : Json.JsValue :=
  Json.JObj [("type", Json.JStr (js "glossary_substitution"));
             ("description", Json.JStr (js "Replaced Jon with Jonathan"))].

Definition sentResult : Json.JsValue :=
  Json.JObj [("original_text", Json.JStr (js "Jon go to market."));
             ("refined_text", Json.JStr (js "Jonathan went to the market."));
             ("changes_made", Json.JArr [glossaryChange]);
             ("confidence_score", Json.JNum (17 # 20));
             ("processing_time", Json.JNum (3 # 2))].

Definition specifiedResult : Json.JsValue :=
  Json.JObj [("original_text", Json.JStr (js "Jon go to market."));
             ("refined_text", Json.JStr (js "Jonathan went to the market."));
             ("changes", Json.JArr [glossaryChange]);
             ("confidence_score", Json.JNum (17 # 20));
             ("processing_time", Json.JNum (3 # 2))].

(** The result of two changes that [sentResult] extends, and a back end
    that answers every request with it. *)
Definition refined : RefinementResult.t :=
  RefinementResult.mk (js "Jon go to market.")
    (js "Jonathan went to the market.")
    [Change.mk (js "glossary_substitution")
       (js "Replaced Jon with Jonathan");
     Change.mk (js "style_correction") (js "Fixed the tense")]
    (17 # 20) (3 # 2).







(** The typed view agrees with the shape. *)
Example asRefinementResult_run :
  Json.asRefinementResult sentResult
  = Some (RefinementResult.mk (js "Jon go to market.")
            (js "Jonathan went to the market.")
            [Change.mk (js "glossary_substitution")
               (js "Replaced Jon with Jonathan")]
            (17 # 20) (3 # 2)) /\
  Json.asRefinementResult specifiedResult = None /\
  Json.ofRefinementResult refined
  = Json.JObj
      [("original_text", Json.JStr (js "Jon go to market."));
       ("refined_text", Json.JStr (js "Jonathan went to the market."));
       ("changes_made",
        Json.JArr
          [glossaryChange;
           Json.JObj [("type", Json.JStr (js "style_correction"));
                      ("description", Json.JStr (js "Fixed the tense"))]]);
       ("confidence_score", Json.JNum (17 # 20));
       ("processing_time", Json.JNum (3 # 2))].
Proof. repeat split. Qed.

(** * Part III. Further properties of the services *)

(** ** Splitting a text into words and sentences *)

Section Splitting.

Variable sep : codeUnit -> bool.

(** A piece without separators. *)
Definition separatorFree (piece : jsstring) : Prop :=
  forall c, In c piece -> sep c = false.

(** [pieces.join(c)] for a one-unit separator. *)
Fixpoint joinWith (c : codeUnit) (pieces : list jsstring) : jsstring :=
  match pieces with
  | [] => []
  | [piece] => piece
  | piece :: pieces' => piece ++ c :: joinWith c pieces'
  end.

Lemma splitFrom_not_nil inRun s : splitFrom sep inRun s <> [].
Proof.
  revert inRun. induction s as [|c s IH]; intros inRun; simpl.
  - discriminate.
  - destruct (sep c).
    + destruct inRun; [apply IH | discriminate].
    + destruct (splitFrom sep false s); discriminate.
Qed.

Lemma splitFrom_length inRun s :
  (1 <= List.length (splitFrom sep inRun s))%nat.
Proof.
  pose proof (splitFrom_not_nil inRun s).
  destruct (splitFrom sep inRun s); simpl; [congruence | lia].
Qed.

Lemma splitFrom_separatorFree inRun s :
  Forall separatorFree (splitFrom sep inRun s).
Proof.
  revert inRun. induction s as [|c s IH]; intros inRun; simpl.
  - constructor; [intros x [] | constructor].
  - destruct (sep c) eqn:Hc.
    + destruct inRun; [apply IH|].
      constructor; [intros x [] | apply IH].
    + specialize (IH false).
      destruct (splitFrom sep false s) as [|piece pieces].
      * constructor; [|constructor]. intros x [<-|[]]. exact Hc.
      * inversion IH as [|? ? Hp Hps]; subst.
        constructor; [|exact Hps].
        intros x [<-|Hx]; [exact Hc | apply Hp; exact Hx].
Qed.

Lemma splitFrom_concat inRun s :
  List.concat (splitFrom sep inRun s)
  = List.filter (fun c => negb (sep c)) s.
Proof.
  revert inRun. induction s as [|c s IH]; intros inRun; simpl.
  - reflexivity.
  - destruct (sep c) eqn:Hc; simpl.
    + destruct inRun; simpl; apply IH.
    + specialize (IH false).
      pose proof (splitFrom_not_nil false s) as Hne.
      destruct (splitFrom sep false s) as [|piece pieces]; [congruence|].
      simpl in *. now rewrite IH.
Qed.

(** A word in front of a text goes in front of the first piece. *)
Lemma splitFrom_word inRun word s :
  separatorFree word -> word <> [] \/ inRun = false ->
  splitFrom sep inRun (word ++ s)
  = match splitFrom sep false s with
    | piece :: pieces => (word ++ piece) :: pieces
    | [] => [word]
    end.
Proof.
  intros Hfree Hne. revert inRun Hne.
  induction word as [|c word IH]; intros inRun Hne.
  - destruct Hne as [Hne| ->]; [congruence|]. simpl.
    pose proof (splitFrom_not_nil false s) as Hs.
    destruct (splitFrom sep false s); [congruence | reflexivity].
  - simpl. rewrite (Hfree c) by (left; reflexivity).
    rewrite IH; [|intros x Hx; apply Hfree; right; exact Hx | right; reflexivity].
    pose proof (splitFrom_not_nil false s) as Hs.
    destruct (splitFrom sep false s); [congruence | reflexivity].
Qed.

Lemma splitFrom_join c words inRun :
  sep c = true -> words <> [] ->
  Forall (fun word => separatorFree word /\ word <> []) words ->
  splitFrom sep inRun (joinWith c words) = words.
Proof.
  intros Hc Hne Hall. revert inRun.
  induction Hall as [|word words [Hfree Hword] Hall IH]; intros inRun;
    [congruence|].
  destruct words as [|word' words].
  - simpl joinWith. rewrite <- (app_nil_r word) at 1.
    rewrite splitFrom_word by auto. simpl. now rewrite app_nil_r.
  - change (joinWith c (word :: word' :: words))
      with (word ++ c :: joinWith c (word' :: words)).
    rewrite splitFrom_word by auto.
    simpl splitFrom at 1. rewrite Hc.
    rewrite IH by discriminate. simpl. now rewrite app_nil_r.
Qed.

End Splitting.

(** X1: a split never gives an empty list, its pieces hold no separator,
    and put together they are the text with its separators taken out. *)
Theorem splitOn_pieces sep s :
  (1 <= List.length (splitOn sep s))%nat /\
  Forall (separatorFree sep) (splitOn sep s) /\
  List.concat (splitOn sep s) = List.filter (fun c => negb (sep c)) s.
Proof.
  unfold splitOn.
  split; [apply splitFrom_length|].
  split; [apply splitFrom_separatorFree | apply splitFrom_concat].
Qed.

(** X2: words that are not empty and hold no separator, joined by one
    separator each, split into the same words. *)
Theorem splitOn_joinWith sep c words :
  sep c = true -> words <> [] ->
  Forall (fun word => separatorFree sep word /\ word <> []) words ->
  splitOn sep (joinWith c words) = words.
Proof.
  intros Hc Hne Hall. unfold splitOn.
  apply splitFrom_join; assumption.
Qed.

Lemma splitOn_joinWith_witness :
  (isWhiteSpace 32%N = true /\
   [js "Jon"; js "went"; js "home."] <> [] /\
   Forall (fun word => separatorFree isWhiteSpace word /\ word <> [])
     [js "Jon"; js "went"; js "home."]) /\
  splitOn isWhiteSpace (joinWith 32%N [js "Jon"; js "went"; js "home."])
  = [js "Jon"; js "went"; js "home."].
Proof.
  assert (H : Forall
                (fun word => separatorFree isWhiteSpace word /\ word <> [])
                [js "Jon"; js "went"; js "home."]).
  { repeat constructor; try discriminate;
      intros c Hc; simpl in Hc;
      repeat (destruct Hc as [<-|Hc]; [reflexivity|]); destruct Hc. }
  split; [split; [reflexivity | split; [discriminate | exact H]]|].
  apply (splitOn_joinWith isWhiteSpace 32%N
           [js "Jon"; js "went"; js "home."]);
    [reflexivity | discriminate | exact H].
Defined.

(** Splits at the ends and in the middle of a text, run. *)
Example splitOn_run :
  splitOn isWhiteSpace (js "") = [js ""] /\
  splitOn isWhiteSpace (js "a  b") = [js "a"; js "b"] /\
  splitOn isWhiteSpace (js " a ") = [js ""; js "a"; js ""] /\
  splitOn isWhiteSpace (js "   ") = [js ""; js ""] /\
  splitOn isSentenceEnd (js "Hi! Who?! Me.") =
    [js "Hi"; js " Who"; js " Me"; js ""].
Proof. repeat split. Qed.

(** ** NlpService.getRefinementQuality *)

Section RefinementQuality.

Import NlpService.

Lemma Qlt_quotients (a b c d : Z) :
  0 < b -> 0 < d ->
  (inject_Z a / inject_Z b < inject_Z c / inject_Z d)%Q <-> a * d < c * b.
Proof.
  intros Hb Hd.
  destruct b as [|b|b]; try lia. destruct d as [|d|d]; try lia.
  rewrite <- !Qmake_Qdiv. unfold Qlt. simpl. reflexivity.
Qed.

Lemma round2_comp (x y : Q) : (x == y)%Q -> round2 x = round2 y.
Proof.
  intros H. unfold round2.
  assert (E : Qfloor (x * 100 + (1 # 2)) = Qfloor (y * 100 + (1 # 2))).
  { apply Qfloor_comp. rewrite H. reflexivity. }
  rewrite E. reflexivity.
Qed.

Lemma Qfloor_half (z : Z) : Qfloor (inject_Z z + (1 # 2)) = z.
Proof.
  unfold Qfloor, Qplus, inject_Z. simpl.
  symmetry. apply Z.div_unique with (r := 1); lia.
Qed.

(** Rounding to two places keeps a bound that is a whole number of
    hundredths. *)
Lemma round2_lower (x : Q) (z : Z) :
  (inject_Z z <= x * 100)%Q -> (inject_Z z / 100 <= round2 x)%Q.
Proof.
  intros H. unfold round2.
  assert (Hz : z <= Qfloor (x * 100 + (1 # 2))).
  { rewrite <- (Qfloor_Z z). apply Qfloor_resp_le.
    apply Qle_trans with (x * 100)%Q; [exact H|].
    rewrite <- (Qplus_0_r (x * 100)) at 1.
    apply Qplus_le_r. discriminate. }
  set (f := Qfloor (x * 100 + (1 # 2))) in *.
  unfold Qle, Qdiv, Qmult, Qinv, inject_Z. simpl. lia.
Qed.

Lemma round2_upper (x : Q) (z : Z) :
  (x * 100 <= inject_Z z)%Q -> (round2 x <= inject_Z z / 100)%Q.
Proof.
  intros H. unfold round2.
  assert (Hz : Qfloor (x * 100 + (1 # 2)) <= z).
  { rewrite <- (Qfloor_half z). apply Qfloor_resp_le.
    apply Qplus_le_l. exact H. }
  set (f := Qfloor (x * 100 + (1 # 2))) in *.
  unfold Qle, Qdiv, Qmult, Qinv, inject_Z. simpl. lia.
Qed.

(** The number of pieces of a split, as the service counts them. *)
Definition pieces (sep : codeUnit -> bool) (text : jsstring) : Z :=
  Z.of_nat (List.length (splitOn sep text)).

Lemma pieces_positive sep text : 1 <= pieces sep text.
Proof.
  unfold pieces. pose proof (splitFrom_length sep false text).
  unfold splitOn. lia.
Qed.

(** X3: every text, the empty one too, counts at least one word and one
    sentence, so that no quotient of [getRefinementQuality] divides by
    zero; the change of length it reports is never below -100, is not
    negative when the refined text has at least as many words as the
    original, and not positive when it has at most as many. *)
Theorem getRefinementQuality_counts originalText refinedText :
  let q := getRefinementQuality originalText refinedText in
  1 <= originalWordCount q /\ 1 <= refinedWordCount q /\
  1 <= originalSentenceCount q /\ 1 <= refinedSentenceCount q /\
  (-100 <= lengthChangePercentage q)%Q /\
  (originalWordCount q <= refinedWordCount q ->
   (0 <= lengthChangePercentage q)%Q) /\
  (refinedWordCount q <= originalWordCount q ->
   (lengthChangePercentage q <= 0)%Q).
Proof.
  intros q. unfold q, getRefinementQuality; simpl.
  fold (pieces isWhiteSpace originalText) (pieces isWhiteSpace refinedText).
  fold (pieces isSentenceEnd originalText) (pieces isSentenceEnd refinedText).
  pose proof (pieces_positive isWhiteSpace originalText) as Ho.
  pose proof (pieces_positive isWhiteSpace refinedText) as Hr.
  split; [exact Ho|]. split; [exact Hr|].
  split; [apply pieces_positive|]. split; [apply pieces_positive|].
  set (ow := pieces isWhiteSpace originalText) in *.
  set (rw := pieces isWhiteSpace refinedText) in *.
  destruct ow as [|ow|ow]; try lia.
  split; [|split].
  - apply (Qle_trans _ (inject_Z (-10000) / 100)); [discriminate|].
    apply round2_lower. rewrite <- Qmake_Qdiv.
    unfold Qle, Qmult, inject_Z. simpl. nia.
  - intros H.
    apply (Qle_trans _ (inject_Z 0 / 100)); [discriminate|].
    apply round2_lower. rewrite <- Qmake_Qdiv.
    unfold Qle, Qmult, inject_Z. simpl. nia.
  - intros H.
    apply (Qle_trans _ (inject_Z 0 / 100)); [|discriminate].
    apply round2_upper. rewrite <- Qmake_Qdiv.
    unfold Qle, Qmult, inject_Z. simpl. nia.
Qed.

(** X4: the refined text reads better, in the eyes of the service,
    exactly when it has fewer words per sentence than the original:
    refined words * original sentences < original words * refined
    sentences. *)
Theorem getRefinementQuality_improvement originalText refinedText :
  let q := getRefinementQuality originalText refinedText in
  readabilityImprovement q = true <->
  refinedWordCount q * originalSentenceCount q
  < originalWordCount q * refinedSentenceCount q.
Proof.
  intros q. unfold q, getRefinementQuality; simpl.
  fold (pieces isWhiteSpace originalText) (pieces isWhiteSpace refinedText).
  fold (pieces isSentenceEnd originalText) (pieces isSentenceEnd refinedText).
  pose proof (pieces_positive isSentenceEnd originalText) as Ho.
  pose proof (pieces_positive isSentenceEnd refinedText) as Hr.
  destruct (Qlt_le_dec _ _) as [Hlt|Hle].
  - split; [intros _ | reflexivity].
    rewrite Qlt_quotients in Hlt by lia. lia.
  - split; [discriminate|]. intros H. exfalso.
    apply (Qle_not_lt _ _ Hle). rewrite Qlt_quotients by lia. lia.
Qed.

(** X5: a text compared with itself: the same counts and averages on
    both sides, no change of length, no improvement. *)
Theorem getRefinementQuality_same text :
  let q := getRefinementQuality text text in
  refinedWordCount q = originalWordCount q /\
  refinedSentenceCount q = originalSentenceCount q /\
  refinedAvgWordsPerSentence q = originalAvgWordsPerSentence q /\
  (lengthChangePercentage q == 0)%Q /\
  readabilityImprovement q = false.
Proof.
  intros q.
  split; [reflexivity|]. split; [reflexivity|]. split; [reflexivity|].
  split.
  - unfold q, getRefinementQuality; simpl.
    rewrite Z.sub_diag.
    rewrite (round2_comp _ 0); [reflexivity|].
    unfold Qdiv. rewrite !Qmult_0_l. reflexivity.
  - unfold q, getRefinementQuality; simpl.
    destruct (Qlt_le_dec _ _) as [Hlt|Hle]; [|reflexivity].
    exfalso. exact (Qlt_irrefl _ Hlt).
Qed.

End RefinementQuality.

Example getRefinementQuality_run :
  NlpService.getRefinementQuality (js "Jon go to market. He buy rice.")
    (js "Jonathan went to the market and bought rice.")
  = NlpService.mkQuality 7 8
      (NlpService.round2 ((1 / 7) * 100)) 3 2
      (NlpService.round2 (7 / 3)) (NlpService.round2 (8 / 2)) false /\
  Qred (NlpService.round2 ((1 / 7) * 100)) = (1429 # 100)%Q /\
  Qred (NlpService.round2 (7 / 3)) = (233 # 100)%Q /\
  NlpService.originalWordCount (NlpService.getRefinementQuality [] []) = 1.
Proof. repeat split. Qed.

(** ** NlpService.pollProcessingStatus *)

Section Polling.

Import NlpService.

Variable backend : Backend unit ProcessingStatus.t.

(** The observable is closed once it has completed or failed. *)
Definition closed (events : list (ObserverEvent ProcessingStatus.t)) : bool :=
  existsb
    (fun event =>
       match event with
       | Emitted _ => false
       | Failed _ | Completed => true
       end) events.

Definition statusRequest (novelId : Z) : HttpRequest unit :=
  mkRequest GET (baseUrl +:+ "/nlp/processing-status/" +:+ pretty novelId)
    jsonHeaders None None.

(** A GET is issued once or twice. *)
Lemma get_issued {P T} (b : Backend P T) endpoint params log :
  exists k,
    (k = 1 \/ k = 2)%nat /\
    snd (get b endpoint params log)
    = log ++ repeat (mkRequest GET (baseUrl +:+ endpoint) jsonHeaders
                       params None) k.
Proof.
  destruct (b log (mkRequest GET (baseUrl +:+ endpoint) jsonHeaders params
                     None)) as [e|v] eqn:E.
  - exists 2%nat. split; [right; reflexivity|].
    rewrite (get_second_answer b endpoint params log e E). simpl.
    now rewrite <- app_assoc.
  - exists 1%nat. split; [left; reflexivity|].
    rewrite (get_first_answer b endpoint params log v E). reflexivity.
Qed.

(** X6: whatever the back end does, an observer of the poll is told a run
    of statuses below 100, one for each poll, and then, if the observable
    closes, either one status of 100 or more followed by the completion,
    or one error; nothing is told after that.  Each poll costs one request
    or, retried, two, all of them the status request of the novel. *)
Theorem pollProcessingStatus_trace polls novelId intervalMs log :
  exists waiting ending requests,
    pollProcessingStatus backend polls novelId intervalMs log
    = (List.map Emitted waiting ++ ending, log ++ requests) /\
    Forall
      (fun status =>
         (ProcessingStatus.completion_percentage status < 100)%Q) waiting /\
    ((ending = [] /\ List.length waiting = polls) \/
     ((List.length waiting < polls)%nat /\
      ((exists status,
          ending = [Emitted status; Completed] /\
          (100 <= ProcessingStatus.completion_percentage status)%Q) \/
       (exists error, ending = [Failed error])))) /\
    Forall (fun request => request = statusRequest novelId) requests /\
    (List.length requests <= 2 * polls)%nat.
Proof.
  revert log. induction polls as [|polls IH]; intros log.
  - exists [], [], []. simpl. rewrite app_nil_r.
    split; [reflexivity|]. split; [constructor|].
    split; [left; split; reflexivity|]. split; [constructor | lia].
  - simpl pollProcessingStatus.
    destruct (get_issued backend
                ("/nlp/processing-status/" +:+ pretty novelId) None log)
      as (k & Hk & Hlog).
    fold (statusRequest novelId) in Hlog.
    unfold getProcessingStatus.
    destruct (get backend ("/nlp/processing-status/" +:+ pretty novelId)
                None log) as [[status|error] log'] eqn:E;
      simpl in Hlog; subst log'.
    + destruct (Qlt_le_dec (ProcessingStatus.completion_percentage status)
                  100) as [Hlt|Hle].
      * destruct (IH (log ++ repeat (statusRequest novelId) k))
          as (waiting & ending & requests & Hrun & Hw & Hend & Hreq & Hlen).
        rewrite Hrun.
        exists (status :: waiting), ending,
          (repeat (statusRequest novelId) k ++ requests).
        split; [now rewrite app_assoc|].
        split; [constructor; assumption|].
        split.
        { destruct Hend as [[-> Hl]|[Hl Hend]].
          - left. split; [reflexivity | simpl; lia].
          - right. split; [simpl; lia | exact Hend]. }
        split.
        { apply Forall_app. split; [|exact Hreq].
          apply List.Forall_forall. intros x Hx.
          now apply repeat_spec in Hx. }
        rewrite length_app, repeat_length. lia.
      * exists [], [Emitted status; Completed],
          (repeat (statusRequest novelId) k).
        split; [reflexivity|]. split; [constructor|].
        split; [right; split; [simpl; lia | left; eauto]|].
        split.
        { apply List.Forall_forall. intros x Hx.
          now apply repeat_spec in Hx. }
        rewrite repeat_length. lia.
    + exists [], [Failed error], (repeat (statusRequest novelId) k).
      split; [reflexivity|]. split; [constructor|].
      split; [right; split; [simpl; lia | right; eauto]|].
      split.
      { apply List.Forall_forall. intros x Hx.
        now apply repeat_spec in Hx. }
      rewrite repeat_length. lia.
Qed.

(** X7: once the observable has closed, watching it for longer shows
    nothing more: no further event and no further request. *)
Theorem pollProcessingStatus_closed polls more novelId intervalMs log :
  closed (fst (pollProcessingStatus backend polls novelId intervalMs log))
  = true ->
  pollProcessingStatus backend (polls + more) novelId intervalMs log
  = pollProcessingStatus backend polls novelId intervalMs log.
Proof.
  revert log. induction polls as [|polls IH]; intros log; simpl.
  - discriminate.
  - destruct (getProcessingStatus backend novelId log)
      as [[status|error] log']; [|reflexivity].
    destruct (Qlt_le_dec (ProcessingStatus.completion_percentage status) 100);
      [|reflexivity].
    specialize (IH log').
    destruct (pollProcessingStatus backend polls novelId intervalMs log')
      as [events log''] eqn:E.
    simpl. intros H. rewrite IH by exact H. reflexivity.
Qed.

End Polling.

(** A novel that is half done at the first poll and done at the second. *)
Definition statusAt (percentage : Q) : ProcessingStatus.t :=
  ProcessingStatus.mk 7 (js "Abyss Domination") 2
    (if Qle_bool 100 percentage then 2 else 1) percentage [].

Definition refining : Backend unit ProcessingStatus.t :=
  fun log _ =>
    match log with
    | [] => inr (statusAt 50)
    | _ :: _ => inr (statusAt 100)
    end.

Lemma pollProcessingStatus_closed_witness :
  closed (fst (NlpService.pollProcessingStatus refining 2 7 None [])) = true /\
  NlpService.pollProcessingStatus refining (2 + 3) 7 None []
  = NlpService.pollProcessingStatus refining 2 7 None [].
Proof.
  split; [reflexivity|].
  apply (pollProcessingStatus_closed refining 2 3 7 None []). reflexivity.
Defined.

Example pollProcessingStatus_run :
  NlpService.pollProcessingStatus refining 5 7 None []
  = ([NlpService.Emitted (statusAt 50); NlpService.Emitted (statusAt 100);
      NlpService.Completed],
     [statusRequest 7; statusRequest 7]) /\
  NlpService.pollProcessingStatus refining 1 7 (Some 1000) []
  = ([NlpService.Emitted (statusAt 50)], [statusRequest 7]) /\
  NlpService.pollProcessingStatus (fun _ _ => inl unavailable) 5 7 None []
  = ([NlpService.Failed "Service Unavailable"],
     [statusRequest 7; statusRequest 7]).
Proof. repeat split. Qed.

Section PollingCompletes.

Import NlpService.

Variable backend : Backend unit ProcessingStatus.t.

Lemma pollProcessingStatus_completes_from n polls novelId intervalMs log :
  (forall log' r,
     exists status,
       backend log' r = inr status /\
       ((n <= List.length log')%nat ->
        (100 <= ProcessingStatus.completion_percentage status)%Q)) ->
  (0 < polls)%nat -> (n < List.length log + polls)%nat ->
  exists waiting final requests,
    pollProcessingStatus backend polls novelId intervalMs log
    = (List.map Emitted waiting ++ [Emitted final; Completed],
       log ++ requests) /\
    Forall
      (fun status =>
         (ProcessingStatus.completion_percentage status < 100)%Q) waiting /\
    (100 <= ProcessingStatus.completion_percentage final)%Q /\
    List.length requests = S (List.length waiting) /\
    (List.length log + List.length requests <= S n \/
     List.length requests = 1)%nat.
Proof.
  intros Hback. revert log.
  induction polls as [|polls IH]; intros log Hpos Hn; [lia|].
  simpl pollProcessingStatus. unfold getProcessingStatus.
  destruct (Hback log (statusRequest novelId)) as (status & E & Hdone).
  rewrite (get_first_answer backend _ None log status E).
  fold (statusRequest novelId).
  destruct (Qlt_le_dec (ProcessingStatus.completion_percentage status) 100)
    as [Hlt|Hle].
  - assert (Hshort : (List.length log < n)%nat).
    { destruct (Nat.lt_ge_cases (List.length log) n) as [H|H]; [exact H|].
      exfalso. apply (Qlt_not_le _ _ Hlt). apply Hdone. exact H. }
    destruct (IH (log ++ [statusRequest novelId]))
      as (waiting & final & requests & Hrun & Hw & Hfinal & Hlen & Hbound).
    { lia. }
    { rewrite length_app. simpl. lia. }
    rewrite Hrun.
    exists (status :: waiting), final, (statusRequest novelId :: requests).
    split; [now rewrite <- app_assoc|].
    split; [constructor; assumption|].
    split; [exact Hfinal|].
    split; [simpl; lia|].
    left. rewrite length_app in Hbound. simpl in *. lia.
  - exists [], status, [statusRequest novelId].
    split; [reflexivity|]. split; [constructor|]. split; [exact Hle|].
    split; [reflexivity|]. right. reflexivity.
Qed.

(** X8: when the back end answers every status request, and answers
    with a completion of 100 or more once it has received [n] requests,
    a poll that is watched for more than [n] polls closes by completing,
    without an error: the observer is told the statuses below 100, then
    one of 100 or more and the completion, and one request has been made
    for each status, [n] + 1 at most. *)
Theorem pollProcessingStatus_completes n polls novelId intervalMs :
  (forall log r,
     exists status,
       backend log r = inr status /\
       ((n <= List.length log)%nat ->
        (100 <= ProcessingStatus.completion_percentage status)%Q)) ->
  (n < polls)%nat ->
  exists waiting final requests,
    pollProcessingStatus backend polls novelId intervalMs []
    = (List.map Emitted waiting ++ [Emitted final; Completed], requests) /\
    Forall
      (fun status =>
         (ProcessingStatus.completion_percentage status < 100)%Q) waiting /\
    (100 <= ProcessingStatus.completion_percentage final)%Q /\
    List.length requests = S (List.length waiting) /\
    (List.length requests <= S n)%nat.
Proof.
  intros Hback Hn.
  destruct (pollProcessingStatus_completes_from n polls novelId intervalMs
              [] Hback)
    as (waiting & final & requests & Hrun & Hw & Hfinal & Hlen & Hbound);
    [lia | simpl; lia |].
  exists waiting, final, requests.
  split; [exact Hrun|]. split; [exact Hw|]. split; [exact Hfinal|].
  split; [exact Hlen|]. simpl in Hbound. lia.
Qed.

End PollingCompletes.

Lemma pollProcessingStatus_completes_witness :
  ((forall log r,
      exists status,
        refining log r = inr status /\
        ((1 <= List.length log)%nat ->
         (100 <= ProcessingStatus.completion_percentage status)%Q)) /\
   (1 < 2)%nat) /\
  exists waiting final requests,
    NlpService.pollProcessingStatus refining 2 7 None []
    = (List.map NlpService.Emitted waiting
       ++ [NlpService.Emitted final; NlpService.Completed], requests) /\
    Forall
      (fun status =>
         (ProcessingStatus.completion_percentage status < 100)%Q) waiting /\
    (100 <= ProcessingStatus.completion_percentage final)%Q /\
    List.length requests = S (List.length waiting) /\
    (List.length requests <= 2)%nat.
Proof.
  assert (H : forall log r,
             exists status,
               refining log r = inr status /\
               ((1 <= List.length log)%nat ->
                (100 <= ProcessingStatus.completion_percentage status)%Q)).
  { intros log r. destruct log as [|x log].
    - exists (statusAt 50). split; [reflexivity | simpl; lia].
    - exists (statusAt 100). split; [reflexivity | intros _; discriminate]. }
  split; [split; [exact H | lia]|].
  apply (pollProcessingStatus_completes refining 1 2 7 None H). lia.
Defined.

(** ** GlossaryService: grouping, searching, ranking *)

Section GlossaryQueries.

Import GlossaryService.

(** The terms of one type, in the order of the list. *)
Definition ofType (ty : jsstring) (terms : list GlossaryTerm.t)
  : list GlossaryTerm.t :=
  List.filter (fun t => bool_decide (GlossaryTerm.term_type t = ty)) terms.

(** A table of groups has no own property under an inherited name. *)
Definition ownTypes (g : gmap jsstring (list GlossaryTerm.t)) : Prop :=
  forall key, JsObject.inherited key = true -> g !! key = None.

Lemma groupTerm_own (g : gmap jsstring (list GlossaryTerm.t)) t :
  JsObject.inherited (GlossaryTerm.term_type t) = false ->
  exists g',
    groupTerm g t = Grouped g' /\
    forall ty,
      g' !! ty
      = if decide (GlossaryTerm.term_type t = ty)
        then Some (default [] (g !! ty) ++ [t])
        else g !! ty.
Proof.
  intros Hown. unfold JsObject.inherited in Hown.
  apply orb_false_iff in Hown as [Hmethod Hproto].
  unfold groupTerm, JsObject.get. rewrite Hmethod, Hproto.
  destruct (g !! GlossaryTerm.term_type t) as [group|] eqn:E.
  - rewrite E. eexists. split; [reflexivity|]. intros ty.
    destruct (decide (GlossaryTerm.term_type t = ty)) as [<-|Hne].
    + rewrite lookup_insert_eq, E. reflexivity.
    + rewrite lookup_insert_ne by exact Hne. reflexivity.
  - rewrite lookup_insert_eq. eexists. split; [reflexivity|]. intros ty.
    destruct (decide (GlossaryTerm.term_type t = ty)) as [<-|Hne].
    + rewrite lookup_insert_eq, E. reflexivity.
    + rewrite !lookup_insert_ne by exact Hne. reflexivity.
Qed.

Lemma groupTerm_inherited (g : gmap jsstring (list GlossaryTerm.t)) t :
  ownTypes g ->
  JsObject.inherited (GlossaryTerm.term_type t) = true ->
  groupTerm g t = TypeError.
Proof.
  intros Hg Hin. pose proof (Hg _ Hin) as E.
  unfold JsObject.inherited in Hin.
  unfold groupTerm, JsObject.get. rewrite E.
  destruct (JsObject.isPrototypeMethod (GlossaryTerm.term_type t)) eqn:Em.
  - cbv beta iota zeta. rewrite E. reflexivity.
  - simpl in Hin. rewrite Hin. cbv beta iota zeta. rewrite E. reflexivity.
Qed.

(** The step of [forEach], once a step has thrown or not. *)
Definition groupNext (grouping : Grouping) (term : GlossaryTerm.t)
  : Grouping :=
  match grouping with
  | Grouped groupedTerms => groupTerm groupedTerms term
  | TypeError => TypeError
  end.

Lemma groupNext_TypeError terms :
  fold_left groupNext terms TypeError = TypeError.
Proof. induction terms as [|t terms IH]; [reflexivity | exact IH]. Qed.

Lemma fold_groupTerm terms :
  forall g : gmap jsstring (list GlossaryTerm.t),
    ownTypes g ->
    (existsb (fun t => JsObject.inherited (GlossaryTerm.term_type t)) terms
     = true ->
     fold_left groupNext terms (Grouped g) = TypeError) /\
    (existsb (fun t => JsObject.inherited (GlossaryTerm.term_type t)) terms
     = false ->
     exists g',
       fold_left groupNext terms (Grouped g) = Grouped g' /\
       forall ty,
         g' !! ty
         = match ofType ty terms with
           | [] => g !! ty
           | _ :: _ => Some (default [] (g !! ty) ++ ofType ty terms)
           end).
Proof.
  induction terms as [|t terms IH]; intros g Hg.
  - split; [discriminate|]. intros _. exists g. split; reflexivity.
  - simpl existsb. simpl fold_left.
    destruct (JsObject.inherited (GlossaryTerm.term_type t)) eqn:Et.
    + split; [|discriminate]. intros _.
      rewrite (groupTerm_inherited g t Hg Et). apply groupNext_TypeError.
    + destruct (groupTerm_own g t Et) as (g1 & E1 & Hg1).
      rewrite E1.
      assert (Hown1 : ownTypes g1).
      { intros key Hkey. rewrite Hg1.
        destruct (decide (GlossaryTerm.term_type t = key)) as [<-|_];
          [congruence | apply Hg; exact Hkey]. }
      destruct (IH g1 Hown1) as [IHt IHf]. split; [exact IHt|].
      intros Hnone. destruct (IHf Hnone) as (g' & E' & Hg').
      exists g'. split; [exact E'|]. intros ty.
      rewrite Hg', Hg1. unfold ofType. simpl.
      destruct (decide (GlossaryTerm.term_type t = ty)) as [E|Hne].
      * rewrite bool_decide_eq_true_2 by exact E. simpl.
        destruct (List.filter _ terms); [reflexivity|].
        simpl. now rewrite <- app_assoc.
      * rewrite bool_decide_eq_false_2 by exact Hne. reflexivity.
Qed.

Lemma termsByType_fold terms :
  termsByType terms = fold_left groupNext terms (Grouped ∅).
Proof. reflexivity. Qed.

(** X9: the grouping by type throws exactly when a term has a type that
    an object literal inherits ([constructor], [toString], [__proto__],
    ...), and the observer is then told nothing.  Otherwise it files
    every term under its type and nowhere else: the group of a type is
    the list of the terms of that type, in the order they were delivered,
    and a type without terms has no group (never an empty one). *)
Theorem termsByType_groups terms :
  (termsByType terms = TypeError <->
   exists t,
     In t terms /\ JsObject.inherited (GlossaryTerm.term_type t) = true) /\
  ((forall t, In t terms ->
              JsObject.inherited (GlossaryTerm.term_type t) = false) ->
   exists groupedTerms, termsByType terms = Grouped groupedTerms) /\
  (forall groupedTerms,
     termsByType terms = Grouped groupedTerms ->
     (forall ty,
        groupedTerms !! ty
        = match ofType ty terms with
          | [] => None
          | group => Some group
          end) /\
     (forall t, In t terms ->
        exists group,
          groupedTerms !! GlossaryTerm.term_type t = Some group /\
          In t group) /\
     (forall ty group t,
        groupedTerms !! ty = Some group -> In t group ->
        In t terms /\ GlossaryTerm.term_type t = ty)).
Proof.
  assert (Hempty : ownTypes ∅) by (intros key _; apply lookup_empty).
  destruct (fold_groupTerm terms ∅ Hempty) as [Hthrown Hgrouped].
  rewrite termsByType_fold.
  destruct (existsb
              (fun t => JsObject.inherited (GlossaryTerm.term_type t)) terms)
    eqn:E.
  - pose proof (Hthrown eq_refl) as Ht. rewrite Ht.
    apply existsb_exists in E as (t & Hin & Hinh).
    split; [split; [intros _; exists t; auto | reflexivity]|].
    split; [|intros g Hg; discriminate Hg].
    intros Hall. rewrite (Hall t Hin) in Hinh. discriminate Hinh.
  - destruct (Hgrouped eq_refl) as (g & Eg & Hg). rewrite Eg.
    assert (Hnone : forall t, In t terms ->
              JsObject.inherited (GlossaryTerm.term_type t) = false).
    { intros t Hin.
      destruct (JsObject.inherited (GlossaryTerm.term_type t)) eqn:Et;
        [|reflexivity].
      assert (Hex : existsb
                (fun t => JsObject.inherited (GlossaryTerm.term_type t))
                terms = true)
        by (apply existsb_exists; exists t; auto).
      congruence. }
    split.
    { split; [discriminate|]. intros (t & Hin & Hinh).
      rewrite (Hnone t Hin) in Hinh. discriminate Hinh. }
    split; [intros _; exists g; reflexivity|].
    intros g' Hg'. injection Hg' as <-.
    assert (H : forall ty,
                g !! ty = match ofType ty terms with
                          | [] => None
                          | group => Some group
                          end).
    { intros ty. rewrite Hg, lookup_empty.
      destruct (ofType ty terms); reflexivity. }
    split; [exact H|]. split.
    + intros t Ht. rewrite H.
      assert (Hin : In t (ofType (GlossaryTerm.term_type t) terms)).
      { apply filter_In. split; [exact Ht|].
        apply bool_decide_eq_true_2. reflexivity. }
      destruct (ofType (GlossaryTerm.term_type t) terms) as [|x l];
        [destruct Hin|].
      eexists. split; [reflexivity | exact Hin].
    + intros ty group t Hgroup Ht. rewrite H in Hgroup.
      assert (Hin : In t (ofType ty terms)).
      { destruct (ofType ty terms); [discriminate|].
        injection Hgroup as <-. exact Ht. }
      apply filter_In in Hin as [Hin Hty].
      apply bool_decide_eq_true in Hty. split; assumption.
Qed.

Example termsByType_run :
  (exists groupedTerms,
     termsByType [elyra; myr; sola; kaldor] = Grouped groupedTerms /\
     groupedTerms !! js "character" = Some [elyra; myr; sola] /\
     groupedTerms !! js "place" = Some [kaldor] /\
     groupedTerms !! js "item" = None) /\
  termsByType [elyra; mason; kaldor] = TypeError /\
  termsByType [lineage] = TypeError.
Proof.
  split; [|split; vm_compute; reflexivity].
  eexists. split; [reflexivity|]. vm_compute. repeat split.
Qed.




Variable toLowerCase : jsstring -> jsstring.


End GlossaryQueries.

Example searchTerms_run :
  List.filter (GlossaryService.matchesQuery asciiToLowerCase (js "YR"))
    [elyra; myr; sola; kaldor] = [elyra; myr] /\
  List.filter (GlossaryService.matchesQuery asciiToLowerCase (js ""))
    [elyra; myr; sola; kaldor] = [elyra; myr; sola; kaldor] /\
  List.filter (GlossaryService.matchesQuery asciiToLowerCase (js "x"))
    [elyra; myr; sola; kaldor] = [].
Proof. vm_compute. repeat split. Qed.

(** ** GlossaryService.getFrequentTerms on any list of terms *)

Section Ranking.

Import GlossaryService.









End Ranking.

(** ** Validators: what their verdict depends on *)

Section Verdicts.

Import GlossaryService.

Variable toLowerCase : jsstring -> jsstring.

(** X13: the verdict on a term depends on the existing terms only through
    which terms there are: two lists with the same elements, in any order
    and with any repetitions, give the same result, errors and all. *)
Theorem validateTerm_same_elements term existingTerms existingTerms' :
  (forall e, In e existingTerms <-> In e existingTerms') ->
  validateTerm toLowerCase term existingTerms
  = validateTerm toLowerCase term existingTerms'.
Proof.
  intros Hsame.
  pose proof (find_duplicate_iff toLowerCase term existingTerms) as H1.
  pose proof (find_duplicate_iff toLowerCase term existingTerms') as H2.
  assert (Hd : duplicates toLowerCase term existingTerms <->
               duplicates toLowerCase term existingTerms').
  { unfold duplicates. split; intros (e & Hin & He); exists e;
      (split; [apply Hsame; exact Hin | exact He]). }
  unfold validateTerm.
  match type of H1 with ?b1 = true <-> _ =>
    match type of H2 with ?b2 = true <-> _ =>
      assert (E : b1 = b2)
        by (destruct b1, b2; try reflexivity; exfalso;
            [assert (false = true) by tauto | assert (false = true) by tauto];
            discriminate)
    end
  end.
  rewrite E. reflexivity.
Qed.

End Verdicts.

Lemma validateTerm_same_elements_witness :
  (forall e, In e [elyra; myr] <-> In e [myr; elyra; myr]) /\
  GlossaryService.validateTerm asciiToLowerCase
    (GlossaryTermCreate.mk 1 (js "MYR") (js "Myr") (js "character") None)
    [elyra; myr]
  = GlossaryService.validateTerm asciiToLowerCase
      (GlossaryTermCreate.mk 1 (js "MYR") (js "Myr") (js "character") None)
      [myr; elyra; myr].
Proof.
  assert (H : forall e, In e [elyra; myr] <-> In e [myr; elyra; myr]).
  { intros e. simpl. tauto. }
  split; [exact H|].
  apply (validateTerm_same_elements asciiToLowerCase
           (GlossaryTermCreate.mk 1 (js "MYR") (js "Myr") (js "character")
              None) [elyra; myr] [myr; elyra; myr] H).
Defined.

Section TextVerdicts.

Import NlpService.

(** X14: a text gets at most two errors, in the order empty, too long,
    too short, and never both of the length errors; two errors mean that
    the text is empty or whitespace only. *)
Theorem validateTextForProcessing_error_count text :
  (List.length (errors (validateTextForProcessing text)) <= 2)%nat /\
  ~ (In tooLongMsg (errors (validateTextForProcessing text)) /\
     In tooShortMsg (errors (validateTextForProcessing text))) /\
  (List.length (errors (validateTextForProcessing text)) = 2%nat ->
   trim text = []) /\
  (exists empty long short,
     errors (validateTextForProcessing text) = empty ++ long ++ short /\
     (empty = [] \/ empty = [emptyMsg]) /\
     (long = [] \/ long = [tooLongMsg]) /\
     (short = [] \/ short = [tooShortMsg])).
Proof.
  pose proof (validateTextForProcessing_tooLongMsg text) as Hl.
  pose proof (validateTextForProcessing_tooShortMsg text) as Hs.
  pose proof (isBlank_iff text) as Hb.
  unfold validateTextForProcessing, validationOf, pushIf in *; simpl in *.
  destruct (isBlank text), (50000 <? jslength text) eqn:E1,
    (jslength text <? 10) eqn:E2; simpl in *;
    try (apply Z.ltb_lt in E1); try (apply Z.ltb_lt in E2);
    try lia;
    (split; [lia|]);
    (split; [intros [H1 H2]; try (apply Hl in H1); try (apply Hs in H2);
             try lia; try tauto|]);
    (split; [intros H; try discriminate H; try (apply Hb; reflexivity)|]).
  - exists [emptyMsg], [tooLongMsg], []. repeat split; auto.
  - exists [emptyMsg], [], [tooShortMsg]. repeat split; auto.
  - exists [emptyMsg], [], []. repeat split; auto.
  - exists [], [tooLongMsg], []. repeat split; auto.
  - exists [], [], [tooShortMsg]. repeat split; auto.
  - exists [], [], []. repeat split; auto.
Qed.

End TextVerdicts.

(** ** ApiService: retries and error messages *)

Section Retries.

Context {Payload T : Type}.
Variable backend : Backend Payload T.

(** The answer to the attempt number [i], counted from 0, of a request
    that is repeated. *)
Definition attempt (log : list (HttpRequest Payload))
  (r : HttpRequest Payload) (i : nat) : HttpErrorResponse + T :=
  backend (log ++ repeat r i) r.

Definition notified (answer : HttpErrorResponse + T)
  : Notification HttpErrorResponse T :=
  match answer with
  | inr v => Next v
  | inl e => Error e
  end.

Lemma repeat_snoc {A} (x : A) n : repeat x n ++ [x] = repeat x (S n).
Proof. induction n as [|n IH]; simpl; [reflexivity | now rewrite IH]. Qed.

Lemma retry_step count r log :
  retry (S count) (send backend r) log
  = match backend log r with
    | inr v => (Next v, log ++ [r])
    | inl _ => retry count (send backend r) (log ++ [r])
    end.
Proof.
  change (retry (S count) (send backend r) log)
    with (match send backend r log with
          | (Next v, log') => (Next v, log')
          | (Error e, log') => retry count (send backend r) log'
          end).
  unfold send at 1. destruct (backend log r); reflexivity.
Qed.

(** X15: [retry(count)] over a request makes at most [count] + 1
    attempts: it stops at the first attempt that is answered, every
    attempt before it having failed, and tells the outcome of the last
    attempt made; it tells an error only when all [count] + 1 attempts
    failed. *)
Theorem retry_attempts count r log :
  exists k,
    (k <= count)%nat /\
    (forall i, (i < k)%nat -> exists e, attempt log r i = inl e) /\
    retry count (send backend r) log
    = (notified (attempt log r k), log ++ repeat r (S k)) /\
    ((k < count)%nat -> exists v, attempt log r k = inr v).
Proof.
  revert log. induction count as [|count IH]; intros log.
  - exists 0%nat. split; [lia|]. split; [intros i Hi; lia|].
    split; [|intros H; lia].
    unfold attempt. simpl. rewrite app_nil_r. unfold send, notified.
    destruct (backend log r); reflexivity.
  - rewrite retry_step.
    destruct (backend log r) as [e|v] eqn:E.
    + destruct (IH (log ++ [r])) as (k & Hk & Hfail & Hrun & Hok).
      exists (S k). split; [lia|]. split; [|split].
      * intros i Hi. destruct i as [|i].
        -- exists e. unfold attempt. simpl. now rewrite app_nil_r.
        -- destruct (Hfail i ltac:(lia)) as [e' He']. exists e'.
           unfold attempt in *. simpl repeat.
           rewrite <- He'. now rewrite <- app_assoc.
      * rewrite Hrun. unfold attempt. simpl repeat.
        now rewrite <- !app_assoc.
      * intros H. destruct (Hok ltac:(lia)) as [v Hv]. exists v.
        unfold attempt in *. simpl repeat.
        rewrite <- Hv. now rewrite <- app_assoc.
    + exists 0%nat. split; [lia|]. split; [intros i Hi; lia|].
      split; [|intros _; exists v; unfold attempt; simpl;
               now rewrite app_nil_r].
      unfold attempt. simpl. rewrite app_nil_r, E. reflexivity.
Qed.

End Retries.

Section ErrorMessages.

Lemma append_not_empty (a b : string) : a <> "" -> a +:+ b <> "".
Proof. destruct a; [congruence | discriminate]. Qed.

(** X16: the message made of an error of the HTTP layer is never empty;
    the detail of the server, when it is not empty, is passed on as it
    is; and the status code is shown only when the response has neither
    a detail nor a message, in which case the "Message:" part is blank. *)
Theorem handleError_message e :
  handleError e <> "" /\
  (forall d, error e = ServerBody (Some d) -> d <> "" -> handleError e = d) /\
  ((forall m, error e <> ClientErrorEvent m) ->
   (forall d, error e = ServerBody (Some d) -> d = "") ->
   (message e <> "" -> handleError e = message e) /\
   (message e = "" ->
    handleError e
    = "Server Error Code: " +:+ pretty (status e) +:+ newline
      +:+ "Message: ")).
Proof.
  unfold handleError.
  assert (Hfrom :
    (if negb (String.eqb (message e) "") then message e
     else "Server Error Code: " +:+ pretty (status e) +:+ newline
          +:+ "Message: " +:+ message e) <> "").
  { destruct (String.eqb_spec (message e) "") as [E|E]; simpl.
    - apply append_not_empty. discriminate.
    - exact E. }
  split; [|split].
  - destruct (error e) as [m|[d|]|]; try exact Hfrom.
    + apply append_not_empty. discriminate.
    + destruct (String.eqb_spec d "") as [E|E]; simpl; [exact Hfrom | exact E].
  - intros d -> Hd.
    destruct (String.eqb_spec d "") as [E|E]; simpl; [congruence | reflexivity].
  - intros Hclient Hdetail.
    assert (Hcase :
      match error e with
      | ClientErrorEvent m => "Client Error: " +:+ m
      | ServerBody (Some d) =>
          if negb (String.eqb d "") then d
          else if negb (String.eqb (message e) "") then message e
               else "Server Error Code: " +:+ pretty (status e) +:+ newline
                    +:+ "Message: " +:+ message e
      | ServerBody None | NoBody =>
          if negb (String.eqb (message e) "") then message e
          else "Server Error Code: " +:+ pretty (status e) +:+ newline
               +:+ "Message: " +:+ message e
      end
      = if negb (String.eqb (message e) "") then message e
        else "Server Error Code: " +:+ pretty (status e) +:+ newline
             +:+ "Message: " +:+ message e).
    { destruct (error e) as [m|[d|]|] eqn:E; try reflexivity.
      - exfalso. apply (Hclient m). reflexivity.
      - rewrite (Hdetail d eq_refl). reflexivity. }
    cbv zeta. rewrite Hcase.
    destruct (String.eqb_spec (message e) "") as [E|E]; simpl.
    + split; [congruence|]. intros _. rewrite E. reflexivity.
    + split; [reflexivity | congruence].
Qed.

End ErrorMessages.

(** ** NovelService.getProcessingStats: averages and completion *)

Section NovelStatistics.

Import NovelService.

Lemma fold_left_word_count chapters : forall a,
  fold_left (fun sum ch => sum + Chapter.word_count ch) chapters a
  = a + fold_right Z.add 0 (List.map Chapter.word_count chapters).
Proof.
  induction chapters as [|ch chapters IH]; intros a; simpl.
  - lia.
  - rewrite IH. lia.
Qed.

Lemma sum_bounds (lo hi : Z) (values : list Z) :
  (forall v, In v values -> lo <= v <= hi) ->
  lo * Z.of_nat (List.length values)
  <= fold_right Z.add 0 values
  <= hi * Z.of_nat (List.length values).
Proof.
  induction values as [|v values IH]; intros H; simpl List.length; simpl fold_right.
  - lia.
  - assert (Hv : lo <= v <= hi) by (apply H; left; reflexivity).
    assert (IH' := IH (fun x Hx => H x (or_intror Hx))).
    lia.
Qed.

(** X17: the average word count of a novel with chapters lies between
    the word counts of its shortest and of its longest chapter; without
    chapters it is 0. *)
Theorem processingStats_average novel lo hi :
  (forall ch, In ch (Novel.chapters novel) ->
              lo <= Chapter.word_count ch <= hi) ->
  (Novel.chapters novel <> [] ->
   (inject_Z lo <= averageWordCount (processingStats novel)
    <= inject_Z hi)%Q) /\
  (Novel.chapters novel = [] ->
   averageWordCount (processingStats novel) = 0%Q).
Proof.
  intros Hb. unfold processingStats; simpl. split.
  - intros Hne.
    assert (Hn : 0 < Z.of_nat (List.length (Novel.chapters novel))).
    { destruct (Novel.chapters novel); [congruence | simpl; lia]. }
    assert (E : (Z.of_nat (List.length (Novel.chapters novel)) >? 0) = true)
      by (apply Z.gtb_lt; exact Hn).
    rewrite E, fold_left_word_count. simpl Z.add.
    pose proof (sum_bounds lo hi
                  (List.map Chapter.word_count (Novel.chapters novel))) as Hs.
    rewrite length_map in Hs.
    assert (Hs' := Hs (fun v Hv =>
      match proj1 (in_map_iff _ _ _) Hv with
      | ex_intro _ ch (conj Ev Hin) =>
          eq_ind _ (fun v => lo <= v <= hi) (Hb ch Hin) _ Ev
      end)).
    set (total := fold_right Z.add 0
                    (List.map Chapter.word_count (Novel.chapters novel))) in *.
    destruct (Z.of_nat (List.length (Novel.chapters novel))) as [|n|n];
      try lia.
    rewrite <- Qmake_Qdiv. unfold Qle, inject_Z. simpl. lia.
  - intros ->. reflexivity.
Qed.

Lemma processingStats_average_witness :
  (forall ch, In ch (Novel.chapters abyss) ->
              1200 <= Chapter.word_count ch <= 1200) /\
  (Novel.chapters abyss <> [] ->
   (inject_Z 1200 <= averageWordCount (processingStats abyss)
    <= inject_Z 1200)%Q) /\
  (Novel.chapters abyss = [] ->
   averageWordCount (processingStats abyss) = 0%Q).
Proof.
  assert (H : forall ch, In ch (Novel.chapters abyss) ->
                         1200 <= Chapter.word_count ch <= 1200).
  { intros ch [<-|[<-|[<-|[]]]]; simpl; lia. }
  split; [exact H|].
  apply (processingStats_average abyss 1200 1200 H).
Defined.

Lemma filter_all_length {A} (p : A -> bool) (l : list A) :
  List.length (List.filter p l) = List.length l <->
  forall x, In x l -> p x = true.
Proof.
  induction l as [|x l IH]; simpl.
  - split; [intros _ y [] | reflexivity].
  - pose proof (filter_length_le p l) as Hle.
    destruct (p x) eqn:Hx; simpl.
    + split.
      * intros H y [<-|Hy]; [exact Hx|]. apply IH; [lia | exact Hy].
      * intros H. f_equal. apply IH. intros y Hy. apply H. right; exact Hy.
    + split; [lia|]. intros H.
      specialize (H x (or_introl eq_refl)). congruence.
Qed.

Lemma filter_none_length {A} (p : A -> bool) (l : list A) :
  List.length (List.filter p l) = 0%nat <->
  forall x, In x l -> p x = false.
Proof.
  induction l as [|x l IH]; simpl.
  - split; [intros _ y [] | reflexivity].
  - destruct (p x) eqn:Hx; simpl.
    + split; [discriminate|]. intros H.
      specialize (H x (or_introl eq_refl)). congruence.
    + rewrite IH. split.
      * intros H y [<-|Hy]; [exact Hx | apply H; exact Hy].
      * intros H y Hy. apply H. right; exact Hy.
Qed.

(** X18: the completion percentage is 100 exactly when the novel has
    chapters and all of them are processed, and 0 exactly when none of
    its chapters is processed (as for a novel without chapters). *)
Theorem processingStats_complete novel :
  ((completionPercentage (processingStats novel) == 100)%Q <->
   Novel.chapters novel <> [] /\
   forall ch, In ch (Novel.chapters novel) ->
              Chapter.is_processed ch = true) /\
  ((completionPercentage (processingStats novel) == 0)%Q <->
   forall ch, In ch (Novel.chapters novel) ->
              Chapter.is_processed ch = false).
Proof.
  unfold processingStats; simpl.
  pose proof (filter_length_le Chapter.is_processed (Novel.chapters novel))
    as Hle.
  rewrite <- filter_all_length, <- filter_none_length.
  set (processed :=
         List.length (List.filter Chapter.is_processed
                        (Novel.chapters novel))) in *.
  destruct (Novel.chapters novel) as [|ch chapters] eqn:Ech.
  - simpl in *. split.
    + split; [intros H; discriminate H | intros [H _]; congruence].
    + split; [intros _; lia | reflexivity].
  - set (total := List.length (ch :: chapters)) in *.
    assert (Ht : (0 < total)%nat) by (unfold total; simpl; lia).
    assert (E : (Z.of_nat total >? 0) = true) by (apply Z.gtb_lt; lia).
    rewrite E.
    assert (Hq : forall p t : nat, (0 < t)%nat ->
              (inject_Z (Z.of_nat p) / inject_Z (Z.of_nat t) * 100
               == (Z.of_nat p * 100) # (Pos.of_nat t))%Q).
    { intros p t Hpos.
      replace (Z.of_nat t) with (Z.pos (Pos.of_nat t))
        by (rewrite <- (Nat2Pos.id t) at 2 by lia;
            now rewrite positive_nat_Z).
      rewrite <- Qmake_Qdiv. unfold Qeq, Qmult. simpl. lia. }
    rewrite (Hq processed total Ht).
    assert (Hpos : Z.pos (Pos.of_nat total) = Z.of_nat total).
    { rewrite <- (Nat2Pos.id total) at 2 by lia.
      now rewrite positive_nat_Z. }
    unfold Qeq. simpl. rewrite Hpos. split.
    + split.
      * intros H. split; [discriminate | lia].
      * intros [_ H]. lia.
    + split; intros H; lia.
Qed.

End NovelStatistics.

Example processingStats_complete_run :
  Qred (NovelService.completionPercentage
          (NovelService.processingStats
             (Novel.mk 9 [] [] [] [] [] 2 [chapter 1 true; chapter 2 true])))
  = 100%Q /\
  Qred (NovelService.completionPercentage
          (NovelService.processingStats
             (Novel.mk 9 [] [] [] [] [] 2
                [chapter 1 false; chapter 2 false])))
  = 0%Q.
Proof. repeat split. Qed.

(** ** GlossaryService.getTerms: the requests it makes *)

Section TermsRequests.

Import GlossaryService.

Variable backend : Backend TermsParams (list GlossaryTerm.t).

Definition termsUrl (novelId : Z) : string :=
  baseUrl +:+ "/glossary/terms/" +:+ pretty novelId.

(** X19: [getTerms] makes one request or, retried, two, all of them the
    same GET of the terms of the novel; [active_only] is as given, true by
    default; [term_type] is sent only for a type that is given and not
    empty; and the terms of two different novels are never asked from the
    same URL. *)
Theorem getTerms_requests novelId termType activeOnly log :
  exists params k,
    (k = 1 \/ k = 2)%nat /\
    snd (getTerms backend novelId termType activeOnly log)
    = log ++ repeat (mkRequest GET (termsUrl novelId) jsonHeaders
                       (Some params) None) k /\
    active_only params = default true activeOnly /\
    (forall ty, term_type params = Some ty <->
                termType = Some ty /\ ty <> []) /\
    (forall other, termsUrl other = termsUrl novelId -> other = novelId).
Proof.
  unfold getTerms.
  match goal with
  | |- context [get backend _ (Some ?p)] => set (params := p)
  end.
  destruct (get_issued backend ("/glossary/terms/" +:+ pretty novelId)
              (Some params) log) as (k & Hk & Hlog).
  exists params, k.
  split; [exact Hk|]. split; [exact Hlog|].
  split; [|split].
  - unfold params. destruct termType as [ty|]; [|reflexivity].
    destruct (truthy ty); reflexivity.
  - intros ty. unfold params. destruct termType as [ty'|]; simpl.
    + destruct ty' as [|c ty']; simpl.
      * split; [discriminate | intros [E H]; congruence].
      * split; [intros E; injection E as <-; split; [reflexivity | discriminate]
               | intros [E _]; exact E].
    + split; [discriminate | intros [E _]; discriminate].
  - intros other H. unfold termsUrl in H.
    apply String.app_inj in H. apply String.app_inj in H.
    apply pretty_Z_inj in H. exact H.
Qed.

End TermsRequests.

(** ** The search component *)

Section SearchComponent.

Import NovelSearch.

Context {Result : Type}.

(** X20: a query that is empty after trimming is not sent: the component
    shows "Please enter a search term", and neither its other fields nor
    the log of requests change.  Any other query is sent once, with the
    query and the site as they are; when the search is over, the
    component is no longer searching, and it shows either results or a
    message, never both and never neither: results exactly when the
    response was ok and its body had a list of results that is not empty;
    "No novels found" for an ok response without results; "Failed to
    search" otherwise. *)
Theorem searchNovels_outcome (fetch : Fetch (option (list Result)))
  (st : State Result) log :
  (trim (searchQuery st) = [] ->
   searchNovels fetch st log
   = (mkState (searchQuery st) (sourceSite st) (isSearching st)
        (searchResults st) enterTermMsg, log)) /\
  (trim (searchQuery st) <> [] ->
   let st' := fst (searchNovels fetch st log) in
   let answer := fetch log (searchRequest st) in
   snd (searchNovels fetch st log) = log ++ [searchRequest st] /\
   body (searchRequest st) = SearchBody (searchQuery st) (sourceSite st) /\
   isSearching st' = false /\
   searchQuery st' = searchQuery st /\ sourceSite st' = sourceSite st /\
   (errorMessage st' = "" <-> searchResults st' <> []) /\
   (searchResults st' <> [] <->
    exists status results,
      answer = Response true status (Some (Some results)) /\
      results <> [] /\ searchResults st' = results) /\
   (errorMessage st' = noNovelsMsg <->
    exists status,
      answer = Response true status (Some None) \/
      answer = Response true status (Some (Some []))) /\
   (errorMessage st' = searchFailedMsg <->
    answer = Rejected \/
    (exists status, answer = Response true status None) \/
    (exists status json, answer = Response false status json))).
Proof.
  split.
  { intros H. unfold searchNovels. rewrite H. reflexivity. }
  intros Hq st' answer. unfold st', answer, searchNovels.
  assert (Ht : negb (truthy (trim (searchQuery st))) = false).
  { destruct (trim (searchQuery st)); [congruence | reflexivity]. }
  rewrite Ht.
  destruct (fetch log (searchRequest st)) as [|[|] status [[[|x results]|]|]];
    simpl;
    (split; [reflexivity|]); (split; [reflexivity|]);
    (split; [reflexivity|]); (split; [reflexivity|]);
    (split; [reflexivity|]).
  all: split; [split; [intros H; try discriminate H; try congruence
                      | intros H; try reflexivity; try congruence]|].
  all: split; [split; [intros H; try congruence
                      | intros (s & r & E & Hr & _); try discriminate E;
                        try (injection E as _ <-); try congruence]|].
  all: try (exfalso; apply H; reflexivity).
  all: try (exists status, (x :: results); repeat split; discriminate).
  all: split; split;
    try (intros H; discriminate H);
    try (intros [s [E|E]]; discriminate E);
    try (intros [E|[[s E]|(s & j & E)]]; discriminate E);
    try (intros _; reflexivity).
  all: try (intros _; exists status; auto; fail).
  all: try (intros _; left; reflexivity).
  all: try (intros _; right; left; exists status; reflexivity).
  all: try (intros _; right; right; eexists _, _; reflexivity).
Qed.

(** X21: an extraction makes one request and shows one alert, whatever
    the answer.  After an ok response with a body the query and the
    results are cleared and the alert names the novel; otherwise the
    component is left as it was and the alert reports the failure.  The
    site, the searching flag and the error message never change. *)
Theorem extractNovel_outcome (fetch : Fetch Extraction) novelUrl
  (st : State Result) log alerts :
  let '(st', log', alerts') := extractNovel fetch novelUrl st log alerts in
  log' = log ++ [extractRequest st novelUrl] /\
  body (extractRequest st novelUrl) = ExtractBody novelUrl (sourceSite st) /\
  sourceSite st' = sourceSite st /\
  isSearching st' = isSearching st /\
  errorMessage st' = errorMessage st /\
  ((exists status data,
      fetch log (extractRequest st novelUrl)
      = Response true status (Some data) /\
      alerts' = alerts ++ [extractedAlert data] /\
      searchQuery st' = [] /\ searchResults st' = []) \/
   ((forall status data,
       fetch log (extractRequest st novelUrl)
       <> Response true status (Some data)) /\
    alerts' = alerts ++ [extractFailedAlert] /\ st' = st)).
Proof.
  unfold extractNovel.
  destruct (fetch log (extractRequest st novelUrl))
    as [|[|] status [data|]]; simpl;
    repeat (split; [reflexivity|]).
  - right. split; [intros s d H; discriminate H | split; reflexivity].
  - left. exists status, data. repeat split.
  - right. split; [intros s d H; discriminate H | split; reflexivity].
  - right. split; [intros s d H; discriminate H | split; reflexivity].
  - right. split; [intros s d H; discriminate H | split; reflexivity].
Qed.

End SearchComponent.

(** A search with one result, one without results, and one refused. *)
Example searchNovels_run :
  let searching :=
    NovelSearch.mkState (Result := jsstring) (js "abyss")
      (js "novelhi.com") false [] "" in
  NovelSearch.searchNovels
    (fun _ _ => NovelSearch.Response true 200 (Some (Some [js "Abyss"])))
    searching []
  = (NovelSearch.mkState (js "abyss") (js "novelhi.com") false [js "Abyss"]
       "", [NovelSearch.searchRequest searching]) /\
  fst (NovelSearch.searchNovels
         (fun _ _ => NovelSearch.Response true 200 (Some None)) searching [])
  = NovelSearch.mkState (js "abyss") (js "novelhi.com") false []
      NovelSearch.noNovelsMsg /\
  fst (NovelSearch.searchNovels
         (fun _ _ => NovelSearch.Response false 500 None) searching [])
  = NovelSearch.mkState (js "abyss") (js "novelhi.com") false []
      NovelSearch.searchFailedMsg.
Proof. repeat split. Qed.

Lemma searchNovels_outcome_witness :
  let searching :=
    NovelSearch.mkState (Result := jsstring) (js "abyss")
      (js "novelhi.com") true [js "old result"] "old message" in
  let fetch : NovelSearch.Fetch (option (list jsstring)) :=
    fun _ _ => NovelSearch.Response true 200 (Some (Some [js "Abyss"])) in
  trim (NovelSearch.searchQuery searching) <> [] /\
  NovelSearch.searchNovels fetch searching []
  = (NovelSearch.mkState (js "abyss") (js "novelhi.com") false [js "Abyss"]
       "", [NovelSearch.searchRequest searching]) /\
  NovelSearch.isSearching
    (fst (NovelSearch.searchNovels fetch searching [])) = false.
Proof.
  intros searching fetch.
  split; [discriminate|]. split; [reflexivity|].
  destruct (searchNovels_outcome fetch searching []) as [_ H].
  apply H. discriminate.
Defined.

(** ** The search component with custom URLs *)

Section CustomSearchComponent.

Import CustomSearch.

Context {Result : Type}.

Variable fetch : Fetch Result.

(** X22: with the site "custom" a search is an extraction of the custom
    URL and nothing else.  A custom URL that is blank after trimming is
    not sent: the component shows "Please enter a custom URL" and nothing
    else changes.  Otherwise one request is made, the extraction of the
    custom URL as typed with at most 10 chapters and without Selenium, and
    one alert is shown; the searching flag and the error message stay as
    they were; the query, the custom URL and the results are cleared when
    the extraction has started, and kept when it has failed. *)
Theorem searchNovels_custom (w : World Result) :
  sourceSite (component w) = js "custom" ->
  (trim (customUrl (component w)) = [] ->
   searchNovels fetch w
   = mkWorld (withError (component w) enterUrlMsg) (requests w) (alerts w)) /\
  (trim (customUrl (component w)) <> [] ->
   let w' := searchNovels fetch w in
   w' = extractNovel fetch (customUrl (component w)) w /\
   requests w'
   = requests w ++ [extractRequest (customUrl (component w))] /\
   body (extractRequest (customUrl (component w)))
   = ExtractBody (customUrl (component w)) 10 false /\
   (exists alert, alerts w' = alerts w ++ [alert]) /\
   isSearching (component w') = isSearching (component w) /\
   errorMessage (component w') = errorMessage (component w) /\
   sourceSite (component w') = sourceSite (component w) /\
   ((alerts w' = alerts w ++ [extractFailedAlert] /\
     component w' = component w) \/
    (exists data : Data Result,
       alerts w' = alerts w ++ [startedAlert data] /\
       searchQuery (component w') = [] /\
       customUrl (component w') = [] /\
       searchResults (component w') = []))).
Proof.
  intros Hsite. unfold searchNovels.
  assert (E : jsstring_eqb (sourceSite (component w)) (js "custom") = true)
    by (rewrite Hsite; reflexivity).
  rewrite E. split.
  - intros Hblank. rewrite Hblank. reflexivity.
  - intros Hurl.
    assert (Ht : negb (truthy (trim (customUrl (component w)))) = false).
    { destruct (trim (customUrl (component w))); [congruence | reflexivity]. }
    rewrite Ht. cbv zeta.
    split; [reflexivity|].
    unfold extractNovel.
    destruct (fetch (requests w) (extractRequest (customUrl (component w))))
      as [|[|] code [data|]]; simpl;
      (split; [reflexivity|]); (split; [reflexivity|]);
      (split; [eexists; reflexivity|]);
      (split; [reflexivity|]); (split; [reflexivity|]);
      (split; [reflexivity|]).
    + left. split; reflexivity.
    + right. exists data. repeat split.
    + left. split; reflexivity.
    + left. split; reflexivity.
    + left. split; reflexivity.
Qed.

(** X23: with any other site a search shows no alert and asks for no
    extraction.  A query that is blank after trimming is not sent;
    otherwise one search request is made, carrying the query and nothing
    of the site, and afterwards the component is not searching and shows
    either results or a message, never both and never neither. *)
Theorem searchNovels_site (w : World Result) :
  sourceSite (component w) <> js "custom" ->
  let w' := searchNovels fetch w in
  alerts w' = alerts w /\
  customUrl (component w') = customUrl (component w) /\
  (trim (searchQuery (component w)) = [] ->
   w' = mkWorld (withError (component w) enterTermMsg) (requests w)
          (alerts w)) /\
  (trim (searchQuery (component w)) <> [] ->
   requests w' = requests w ++ [searchRequest (component w)] /\
   body (searchRequest (component w))
   = SearchBody (searchQuery (component w)) /\
   isSearching (component w') = false /\
   (errorMessage (component w') = "" <->
    searchResults (component w') <> [])).
Proof.
  intros Hsite w'. unfold w', searchNovels.
  assert (E : jsstring_eqb (sourceSite (component w)) (js "custom") = false).
  { unfold jsstring_eqb. apply bool_decide_eq_false_2. exact Hsite. }
  rewrite E.
  destruct (trim (searchQuery (component w))) as [|c q] eqn:Hq.
  - simpl.
    split; [reflexivity|]. split; [reflexivity|].
    split; [reflexivity|]. intros Hne. congruence.
  - simpl negb. cbv iota.
    destruct (fetch (requests w) (searchRequest (component w)))
      as [|[|] code [[[[|x found]|] url state]|]]; simpl;
      (split; [reflexivity|]); (split; [reflexivity|]);
      (split; [intros Hblank; discriminate Hblank|]); intros _;
      (split; [reflexivity|]); (split; [reflexivity|]);
      (split; [reflexivity|]);
      (split; [intros Hm; try discriminate Hm; congruence
              | intros Hr; try reflexivity; congruence]).
Qed.

End CustomSearchComponent.

Lemma searchNovels_custom_witness :
  let w :=
    CustomSearch.mkWorld
      (CustomSearch.mkState (Result := jsstring) (js "abyss") (js "custom")
         (js "http://novelhi.com/s/abyss") false [js "old result"] "")
      [] [] in
  let fetch : CustomSearch.Fetch jsstring :=
    fun _ _ =>
      NovelSearch.Response true 200
        (Some (CustomSearch.mkData None (Some (js "http://novelhi.com/s/abyss"))
                 (Some (js "started")))) in
  CustomSearch.sourceSite (CustomSearch.component w) = js "custom" /\
  trim (CustomSearch.customUrl (CustomSearch.component w)) <> [] /\
  CustomSearch.requests (CustomSearch.searchNovels fetch w)
  = [CustomSearch.extractRequest (js "http://novelhi.com/s/abyss")] /\
  CustomSearch.component (CustomSearch.searchNovels fetch w)
  = CustomSearch.mkState [] (js "custom") [] false [] "".
Proof.
  intros w fetch.
  split; [reflexivity|]. split; [discriminate|].
  destruct (searchNovels_custom fetch w eq_refl) as [_ H].
  destruct (H ltac:(discriminate)) as (_ & Hreq & _).
  split; [exact Hreq | reflexivity].
Defined.

Lemma searchNovels_site_witness :
  let w :=
    CustomSearch.mkWorld
      (CustomSearch.mkState (Result := jsstring) (js "abyss")
         (js "novelhi.com") (js "") false [] "")
      [] [] in
  let fetch : CustomSearch.Fetch jsstring :=
    fun _ _ => NovelSearch.Response false 500 None in
  CustomSearch.sourceSite (CustomSearch.component w) <> js "custom" /\
  CustomSearch.alerts (CustomSearch.searchNovels fetch w) = [] /\
  CustomSearch.component (CustomSearch.searchNovels fetch w)
  = CustomSearch.mkState (js "abyss") (js "novelhi.com") [] false []
      CustomSearch.searchFailedMsg.
Proof.
  intros w fetch.
  assert (Hsite : CustomSearch.sourceSite (CustomSearch.component w)
                  <> js "custom") by discriminate.
  split; [exact Hsite|].
  destruct (searchNovels_site fetch w Hsite) as (Halerts & _).
  split; [exact Halerts | reflexivity].
Defined.

(** ** Further properties of the statistics and of the queries *)

Section MostFrequent.

Import GlossaryService.

(** The running maximum of [reduce] is the first of the greatest: what
    stands before it is less frequent, what stands after it is not more
    frequent. *)
Lemma fold_left_first_max terms : forall x before middle,
  (forall t, In t before ->
             GlossaryTerm.frequency t < GlossaryTerm.frequency x) ->
  (forall t, In t middle ->
             GlossaryTerm.frequency t <= GlossaryTerm.frequency x) ->
  let m :=
    fold_left
      (fun max term =>
         if GlossaryTerm.frequency term >? GlossaryTerm.frequency max
         then term else max) terms x in
  exists before' after',
    before ++ x :: middle ++ terms = before' ++ m :: after' /\
    (forall t, In t before' ->
       GlossaryTerm.frequency t < GlossaryTerm.frequency m) /\
    (forall t, In t after' ->
       GlossaryTerm.frequency t <= GlossaryTerm.frequency m).
Proof.
  induction terms as [|y terms IH]; intros x before middle Hb Hm; simpl.
  - exists before, middle. rewrite app_nil_r. auto.
  - destruct (GlossaryTerm.frequency y >? GlossaryTerm.frequency x) eqn:E.
    + apply Z.gtb_lt in E.
      destruct (IH y (before ++ x :: middle) [])
        as (b' & a' & Heq & Hlt & Hle).
      * intros t Ht. apply in_app_or in Ht as [Ht|[<-|Ht]].
        -- specialize (Hb t Ht). lia.
        -- exact E.
        -- specialize (Hm t Ht). lia.
      * intros t [].
      * exists b', a'. split; [|split; assumption].
        rewrite <- Heq. simpl. now rewrite <- app_assoc.
    + assert (Hy : GlossaryTerm.frequency y <= GlossaryTerm.frequency x).
      { destruct (Z.gtb_spec (GlossaryTerm.frequency y)
                    (GlossaryTerm.frequency x)); [discriminate | lia]. }
      destruct (IH x before (middle ++ [y]) Hb)
        as (b' & a' & Heq & Hlt & Hle).
      * intros t Ht. apply in_app_or in Ht as [Ht|[<-|[]]]; auto.
      * exists b', a'. split; [|split; assumption].
        rewrite <- Heq. now rewrite <- app_assoc.
Qed.

(** X24: of several terms of the greatest frequency, the statistics name
    the one delivered first: every term before the most frequent term is
    strictly less frequent, no term after it is more frequent. *)
Theorem termStatistics_first_most_frequent terms m :
  mostFrequentTerm (termStatistics terms) = Some m ->
  exists before after,
    terms = before ++ m :: after /\
    (forall t, In t before ->
       GlossaryTerm.frequency t < GlossaryTerm.frequency m) /\
    (forall t, In t after ->
       GlossaryTerm.frequency t <= GlossaryTerm.frequency m).
Proof.
  unfold termStatistics; simpl.
  destruct terms as [|x terms]; [discriminate|].
  assert (E : (Z.of_nat (List.length (x :: terms)) >? 0) = true).
  { apply Z.gtb_lt. simpl List.length. lia. }
  rewrite E. simpl JsArray.reduce1. intros H. injection H as <-.
  destruct (fold_left_first_max terms x [] [])
    as (before & after & Heq & Hlt & Hle); [intros t [] | intros t [] |].
  exists before, after. split; [exact Heq|]. split; assumption.
Qed.

End MostFrequent.

Lemma termStatistics_first_most_frequent_witness :
  GlossaryService.mostFrequentTerm
    (GlossaryService.termStatistics [elyra; myr; kaldor]) = Some myr /\
  exists before after,
    [elyra; myr; kaldor] = before ++ myr :: after /\
    (forall t, In t before ->
       GlossaryTerm.frequency t < GlossaryTerm.frequency myr) /\
    (forall t, In t after ->
       GlossaryTerm.frequency t <= GlossaryTerm.frequency myr).
Proof.
  split; [reflexivity|].
  apply (termStatistics_first_most_frequent [elyra; myr; kaldor] myr).
  reflexivity.
Defined.

Section Wrappers.

Import GlossaryService.

Variable toLowerCase : jsstring -> jsstring.
Variable backend : Backend TermsParams (list GlossaryTerm.t).

Lemma mapNext_requests {P E A B} (f : A -> B) (source : Observable P E A)
  log :
  snd (mapNext f source log) = snd (source log).
Proof.
  unfold mapNext. destruct (source log) as [[v|e] log']; reflexivity.
Qed.

(** X25: the queries built on [getTerms] (by type, search, frequent
    terms, statistics) make the requests of [getTerms] and no other, and
    when [getTerms] fails they fail with its error, unchanged. *)
Theorem glossary_queries_transparent novelId searchQuery limit log :
  snd (getTermsByType backend novelId log)
  = snd (getTerms backend novelId None None log) /\
  snd (searchTerms toLowerCase backend novelId searchQuery log)
  = snd (getTerms backend novelId None None log) /\
  snd (getFrequentTerms backend novelId limit log)
  = snd (getTerms backend novelId None None log) /\
  snd (getTermStatistics backend novelId log)
  = snd (getTerms backend novelId None (Some false) log) /\
  (forall error log',
     getTerms backend novelId None None log = (Error error, log') ->
     getTermsByType backend novelId log = (Error error, log') /\
     searchTerms toLowerCase backend novelId searchQuery log
     = (Error error, log') /\
     getFrequentTerms backend novelId limit log = (Error error, log')) /\
  (forall error log',
     getTerms backend novelId None (Some false) log = (Error error, log') ->
     getTermStatistics backend novelId log = (Error error, log')).
Proof.
  unfold getTermsByType, searchTerms, getFrequentTerms, getTermStatistics.
  split; [apply mapNext_requests|]. split; [apply mapNext_requests|].
  split; [apply mapNext_requests|]. split; [apply mapNext_requests|].
  split.
  - intros error log' H.
    split; [|split]; apply mapNext_Error; exact H.
  - intros error log' H. apply mapNext_Error. exact H.
Qed.

End Wrappers.

Example glossary_queries_run :
  GlossaryService.getTermsByType (fun _ _ => inl unavailable) 1 []
  = (Error "Service Unavailable", [termsRequest "1" true; termsRequest "1" true])
  /\
  fst (GlossaryService.searchTerms asciiToLowerCase
         (GlossaryStore.serve glossary 1) 1 (js "MY") [])
  = Next [myr].
Proof. vm_compute. repeat split. Qed.

Section NovelQueries.

Import NovelService.

Variable novels : Backend unit (list Novel.t).
Variable novel : Backend unit Novel.t.

(** X26: [checkNovelExists] asks for the list of novels, once or, retried,
    twice, and tells [true] exactly when a novel of the list has the URL
    given, unit for unit; [getNovelChapters] and [getProcessingStats] make
    the requests of [getNovelById] and no other; all three pass the error
    of the request on unchanged. *)
Theorem novel_queries novelUrl novelId log :
  snd (checkNovelExists novels novelUrl log) = snd (getNovels novels log) /\
  (forall delivered log',
     getNovels novels log = (Next delivered, log') ->
     exists found,
       checkNovelExists novels novelUrl log = (Next found, log') /\
       (found = true <->
        exists n, In n delivered /\ Novel.url n = novelUrl)) /\
  (forall error log',
     getNovels novels log = (Error error, log') ->
     checkNovelExists novels novelUrl log = (Error error, log')) /\
  snd (getNovelChapters novel novelId log)
  = snd (getNovelById novel novelId log) /\
  snd (getProcessingStats novel novelId log)
  = snd (getNovelById novel novelId log) /\
  (forall n log',
     getNovelById novel novelId log = (Next n, log') ->
     getNovelChapters novel novelId log = (Next (Novel.chapters n), log')) /\
  (forall error log',
     getNovelById novel novelId log = (Error error, log') ->
     getNovelChapters novel novelId log = (Error error, log') /\
     getProcessingStats novel novelId log = (Error error, log')).
Proof.
  unfold checkNovelExists, getNovelChapters, getProcessingStats.
  split; [apply mapNext_requests|].
  split.
  { intros delivered log' H. eexists.
    split; [apply mapNext_Next; exact H|].
    rewrite existsb_exists. unfold jsstring_eqb.
    split; intros (n & Hin & Hn); exists n; (split; [exact Hin|]).
    - apply bool_decide_eq_true in Hn. exact Hn.
    - apply bool_decide_eq_true_2. exact Hn. }
  split; [intros error log' H; apply mapNext_Error; exact H|].
  split; [apply mapNext_requests|]. split; [apply mapNext_requests|].
  split; [intros n log' H; apply mapNext_Next; exact H|].
  intros error log' H. split; apply mapNext_Error; exact H.
Qed.

End NovelQueries.

Example checkNovelExists_run :
  fst (NovelService.checkNovelExists (fun _ _ => inr [abyss])
         (js "http://novelhi.com/s/abyss") []) = Next true /\
  fst (NovelService.checkNovelExists (fun _ _ => inr [abyss])
         (js "http://novelhi.com/s/Abyss") []) = Next false /\
  fst (NovelService.checkNovelExists (fun _ _ => inr [])
         (js "http://novelhi.com/s/abyss") []) = Next false.
Proof. vm_compute. repeat split. Qed.

(** ** GlossaryService.getTermStatistics: the statistics of a delivery *)

Section TypeBreakdown.

Import GlossaryService.

Variable backend : Backend TermsParams (list GlossaryTerm.t).


End TypeBreakdown.

(** A delivery with a term of type [constructor] and one of type
    [__proto__] among terms of types of their own. *)
Definition workshop : list GlossaryTerm.t := [elyra; mason; myr; lineage].


Example getTermStatistics_breakdown_run :
  let stats := GlossaryService.termStatistics workshop in
  GlossaryService.totalTerms stats = 4 /\
  GlossaryService.typeBreakdown stats !! js "character"
  = Some (GlossaryService.Num 2) /\
  GlossaryService.typeBreakdown stats !! js "constructor"
  = Some (GlossaryService.Str (js "function Object() { [native code] }1"))
  /\
  GlossaryService.typeBreakdown stats !! js "__proto__" = None /\
  sumCounts (GlossaryService.typeBreakdown stats) = 2 /\
  inheritedTyped workshop = 2.
Proof. vm_compute. repeat split. Qed.
